(** * Gateway watchdog (src/infra/gateway-watchdog.ts)

    A shallow embedding of the gateway supervisor: the pure helpers
    ([buildChildArgv]), the state store ([writeWatchdogState],
    [readWatchdogState]) over a small model of the host file system and of
    [JSON.stringify] / [JSON.parse], and the event-driven supervisor loop of
    [startGatewayWatchdog] as a step function on an explicit supervisor
    state.

    Conventions.
    - JavaScript strings are modelled as [string], read as the UTF-8 bytes of
      the text (the encoding in which the state file is written and read).
    - JavaScript numbers that the supervisor stores (process ids, the restart
      counter, millisecond clock readings, delays) are integers and are
      modelled as [Z]; IEEE-754 rounding is outside the model.
    - A JavaScript exception is an explicit [Throw] outcome, and
      [try { .. } catch { .. }] is [try_catch].
    - Everything the host decides (clock readings, the pid of a spawned
      child, which file-system writes fail) is an input of the model.
    - [spawn] returns a handle (a failed spawn shows as a handle without pid
      and an [error] event), and the logger and the two hooks
      [onChildExit] and [onGiveUp] return normally.
    - [child.kill] and the handle's [killed] flag follow the Node.js
      documentation of [subprocess.kill] and [subprocess.killed]. *)

From Stdlib Require Import ZArith String Ascii List Sorted Decimal DecimalString DecimalZ DecimalFacts.
From stdpp Require Import base tactics option list gmap strings.

Local Open Scope Z_scope.
Local Set Warnings "-register-all".

(** ** JavaScript outcomes: normal completion or a thrown exception *)

Inductive outcome (A : Type) : Type :=
| Return (a : A)
| Throw (e : string).
Arguments Return {A} a.
Arguments Throw {A} e.

#[global] Instance outcome_ret : MRet outcome := fun A a => Return a.
#[global] Instance outcome_bind : MBind outcome := fun A B f m =>
  match m with
  | Return a => f a
  | Throw e => Throw e
  end.

(** [try { body } catch (err) { handler(err) }] *)
Definition try_catch {A} (body : outcome A) (handler : string -> A) : A :=
  match body with
  | Return a => a
  | Throw e => handler e
  end.

(** ** JSON values *)

(** A number is an exact decimal: an integer [JNum z], or [JDec m e] for the
    non-integer value [m * 10^e] with [e < 0] and [m] not a multiple of ten. *)
Inductive json : Type :=
| JNull
| JBool (b : bool)
| JNum (z : Z)
| JDec (m e : Z)
| JStr (s : string)
| JArr (elems : list json)
| JObj (members : list (string * json)).

Definition dquote : ascii := ascii_of_nat 34.
Definition bslash : ascii := ascii_of_nat 92.
Definition newline : ascii := ascii_of_nat 10.

Definition str1 (c : ascii) : string := String c EmptyString.

Definition hex_digit (n : nat) : ascii :=
  ascii_of_nat (if (n <? 10)%nat then 48 + n else 87 + n)%nat.

(** QuoteJSONString, one code unit at a time: the quote, the backslash and
    the control characters below U+0020 are escaped, anything else is
    copied. *)
Definition escape_char (c : ascii) : string :=
  let n := nat_of_ascii c in
  if (n =? 34)%nat then String bslash (str1 dquote)
  else if (n =? 92)%nat then String bslash (str1 bslash)
  else if (n =? 8)%nat then String bslash "b"
  else if (n =? 12)%nat then String bslash "f"
  else if (n =? 10)%nat then String bslash "n"
  else if (n =? 13)%nat then String bslash "r"
  else if (n =? 9)%nat then String bslash "t"
  else if (n <? 32)%nat then
    String bslash ("u00" +:+ String (hex_digit (n / 16)) (str1 (hex_digit (n mod 16))))
  else str1 c.

Fixpoint escape_string (s : string) : string :=
  match s with
  | EmptyString => EmptyString
  | String c rest => escape_char c +:+ escape_string rest
  end.

Definition quote_json_string (s : string) : string :=
  String dquote (escape_string s +:+ str1 dquote).

(** Decimal text of an integer, as Number::toString prints it (for
    magnitudes below 10^21, where it uses no exponent). *)
Definition string_of_Z (z : Z) : string := NilZero.string_of_int (Z.to_int z).

Fixpoint zeros (n : nat) : string :=
  match n with
  | O => EmptyString
  | S k => String "0" (zeros k)
  end.

Fixpoint string_take (n : nat) (s : string) : string :=
  match n, s with
  | S k, String c r => String c (string_take k r)
  | _, _ => EmptyString
  end.

Fixpoint string_drop (n : nat) (s : string) : string :=
  match n, s with
  | S k, String _ r => string_drop k r
  | _, _ => s
  end.

(** Positional text of [m * 10^e] for [e < 0] (the exponent notation that
    Number::toString uses for very small magnitudes is left out). *)
Definition string_of_dec (m e : Z) : string :=
  let ds := string_of_Z (Z.abs m) in
  let k := Z.to_nat (- e) in
  let len := String.length ds in
  (if m <? 0 then "-" else "") +:+
  (if (k <? len)%nat
   then string_take (len - k) ds +:+ "." +:+ string_drop (len - k) ds
   else "0." +:+ zeros (k - len) +:+ ds).

Fixpoint join (sep : string) (parts : list string) : string :=
  match parts with
  | [] => EmptyString
  | [p] => p
  | p :: ps => p +:+ sep +:+ join sep ps
  end.

(** [JSON.stringify(value, null, gap)]: SerializeJSONProperty with the
    indentation [gap]; [indent] is the current indentation. *)
Fixpoint serialize (gap indent : string) (v : json) : string :=
  match v with
  | JNull => "null"
  | JBool true => "true"
  | JBool false => "false"
  | JNum z => string_of_Z z
  | JDec m e => string_of_dec m e
  | JStr s => quote_json_string s
  | JArr elems =>
      match elems with
      | [] => "[]"
      | _ =>
          let inner := indent +:+ gap in
          let sep := "," +:+ String newline inner in
          "[" +:+ String newline inner
              +:+ join sep (List.map (serialize gap inner) elems)
              +:+ String newline indent +:+ "]"
      end
  | JObj members =>
      match members with
      | [] => "{}"
      | _ =>
          let inner := indent +:+ gap in
          let sep := "," +:+ String newline inner in
          "{" +:+ String newline inner
              +:+ join sep
                    (List.map (fun kv => quote_json_string (fst kv) +:+ ": "
                                         +:+ serialize gap inner (snd kv)) members)
              +:+ String newline indent +:+ "}"
      end
  end.

Definition JSON_stringify (v : json) (spaces : nat) : string :=
  serialize (String.concat "" (replicate spaces " ")) "" v.

(** ** JSON.parse *)

Definition is_ws (c : ascii) : bool :=
  let n := nat_of_ascii c in
  ((n =? 32) || (n =? 9) || (n =? 10) || (n =? 13))%nat.

Fixpoint skip_ws (s : string) : string :=
  match s with
  | String c rest => if is_ws c then skip_ws rest else s
  | EmptyString => s
  end.

Definition digit_of_char (c : ascii) : option (uint -> uint) :=
  match c with
  | "0" => Some D0 | "1" => Some D1 | "2" => Some D2 | "3" => Some D3
  | "4" => Some D4 | "5" => Some D5 | "6" => Some D6 | "7" => Some D7
  | "8" => Some D8 | "9" => Some D9
  | _ => None
  end%char.

(** The longest prefix of decimal digits, and what follows it. *)
Fixpoint scan_digits (s : string) : uint * string :=
  match s with
  | String c rest =>
      match digit_of_char c with
      | Some k => let '(d, rest') := scan_digits rest in (k d, rest')
      | None => (Nil, s)
      end
  | EmptyString => (Nil, s)
  end.

(** Removes the factors of ten that a negative exponent can absorb. *)
Fixpoint strip_tens (fuel : nat) (m e : Z) : Z * Z :=
  match fuel with
  | O => (m, e)
  | S k => if (e <? 0) && (m mod 10 =? 0) then strip_tens k (m / 10) (e + 1) else (m, e)
  end.

Definition make_number (m e : Z) : json :=
  if m =? 0 then JNum 0
  else if 0 <=? e then JNum (m * 10 ^ e)
  else let '(m', e') := strip_tens (Z.to_nat (- e)) m e in
       if e' =? 0 then JNum m' else JDec m' e'.

#[global] Instance uint_eq_decision : EqDecision uint := uint_eq_dec.

Definition is_exp_char (c : ascii) : bool := Ascii.eqb c "e" || Ascii.eqb c "E".

Definition parse_sign (s : string) : bool * string :=
  match s with
  | String c rest => if Ascii.eqb c "-" then (true, rest) else (false, s)
  | EmptyString => (false, s)
  end.

(** The optional fraction [. digit+]. *)
Definition parse_frac (s : string) : option (uint * string) :=
  match s with
  | String c rest =>
      if Ascii.eqb c "." then
        let '(fp, rest') := scan_digits rest in
        if bool_decide (fp = Nil) then None else Some (fp, rest')
      else Some (Nil, s)
  | EmptyString => Some (Nil, s)
  end.

(** The optional exponent [(e|E) (+|-)? digit+]. *)
Definition parse_exp (s : string) : option (Z * string) :=
  match s with
  | String c rest =>
      if is_exp_char c then
        let '(eneg, rest1) :=
          match rest with
          | String c1 r =>
              if Ascii.eqb c1 "-" then (true, r)
              else if Ascii.eqb c1 "+" then (false, r)
              else (false, rest)
          | EmptyString => (false, rest)
          end in
        let '(ep, rest2) := scan_digits rest1 in
        if bool_decide (ep = Nil) then None
        else Some (Z.of_int (if eneg then Neg ep else Pos ep), rest2)
      else Some (0, s)
  | EmptyString => Some (0, s)
  end.

(** A JSON number literal: [-? int frac? exp?], where [int] has no leading
    zero unless it is the single digit 0. *)
Definition parse_number (s : string) : option (json * string) :=
  let '(neg, s1) := parse_sign s in
  let '(ip, s2) := scan_digits s1 in
  if bool_decide (ip = Nil) || negb (bool_decide (unorm ip = ip)) then None else
  '(fp, s3) ← parse_frac s2;
  '(ev, s4) ← parse_exp s3;
  if bool_decide (fp = Nil) && bool_decide (s4 = s3)
  then Some (JNum (Z.of_int (if neg then Neg ip else Pos ip)), s4)
  else Some (make_number ((if neg then (-1) else 1) * Z.of_uint (Decimal.app ip fp))
                         (ev - Z.of_nat (nb_digits fp)), s4).

Definition hex_value (c : ascii) : option N :=
  let n := N_of_ascii c in
  (if (48 <=? n) && (n <=? 57) then Some (n - 48)
   else if (97 <=? n) && (n <=? 102) then Some (n - 87)
   else if (65 <=? n) && (n <=? 70) then Some (n - 55)
   else None)%N.

Definition hex4 (a b c d : ascii) : option N :=
  x ← hex_value a; y ← hex_value b; z ← hex_value c; w ← hex_value d;
  Some (((x * 16 + y) * 16 + z) * 16 + w)%N.

(** UTF-8 bytes of a code point (a lone surrogate is encoded like any other
    three-byte code point). *)
Definition utf8_encode (cp : N) : string :=
  (if cp <? 128 then str1 (ascii_of_N cp)
   else if cp <? 2048 then
     String (ascii_of_N (192 + cp / 64)) (str1 (ascii_of_N (128 + cp mod 64)))
   else if cp <? 65536 then
     String (ascii_of_N (224 + cp / 4096))
       (String (ascii_of_N (128 + (cp / 64) mod 64))
          (str1 (ascii_of_N (128 + cp mod 64))))
   else
     String (ascii_of_N (240 + cp / 262144))
       (String (ascii_of_N (128 + (cp / 4096) mod 64))
          (String (ascii_of_N (128 + (cp / 64) mod 64))
             (str1 (ascii_of_N (128 + cp mod 64))))))%N.

Definition unescape (c : ascii) : option ascii :=
  let n := nat_of_ascii c in
  (if n =? 34 then Some dquote
   else if n =? 92 then Some bslash
   else if n =? 47 then Some "/"%char
   else if n =? 98 then Some (ascii_of_nat 8)
   else if n =? 102 then Some (ascii_of_nat 12)
   else if n =? 110 then Some (ascii_of_nat 10)
   else if n =? 114 then Some (ascii_of_nat 13)
   else if n =? 116 then Some (ascii_of_nat 9)
   else None)%nat.

Definition is_high_surrogate (n : N) : bool := ((55296 <=? n) && (n <=? 56319))%N.
Definition is_low_surrogate (n : N) : bool := ((56320 <=? n) && (n <=? 57343))%N.

(** The characters of a string literal after its opening quote, up to and
    including the closing quote. *)
Fixpoint parse_string_body (s : string) : option (string * string) :=
  match s with
  | EmptyString => None
  | String c rest =>
      if Ascii.eqb c dquote then Some (EmptyString, rest)
      else if Ascii.eqb c bslash then
        match rest with
        | String "u" (String h1 (String h2 (String h3 (String h4 rest1)))) =>
            hi ← hex4 h1 h2 h3 h4;
            if is_high_surrogate hi then
              match rest1 with
              | String b (String "u" (String l1 (String l2 (String l3 (String l4 rest2))))) =>
                  match hex4 l1 l2 l3 l4 with
                  | Some lo =>
                      if Ascii.eqb b bslash && is_low_surrogate lo then
                        '(body, r) ← parse_string_body rest2;
                        Some (utf8_encode (65536 + (hi - 55296) * 1024 + (lo - 56320))%N
                                +:+ body, r)
                      else
                        '(body, r) ← parse_string_body rest1;
                        Some (utf8_encode hi +:+ body, r)
                  | None =>
                      '(body, r) ← parse_string_body rest1;
                      Some (utf8_encode hi +:+ body, r)
                  end
              | _ =>
                  '(body, r) ← parse_string_body rest1;
                  Some (utf8_encode hi +:+ body, r)
              end
            else
              '(body, r) ← parse_string_body rest1;
              Some (utf8_encode hi +:+ body, r)
        | String e rest1 =>
            c' ← unescape e;
            '(body, r) ← parse_string_body rest1;
            Some (String c' body, r)
        | EmptyString => None
        end
      else if (nat_of_ascii c <? 32)%nat then None
      else
        '(body, r) ← parse_string_body rest;
        Some (String c body, r)
  end.

Fixpoint string_prefix (p s : string) : option string :=
  match p, s with
  | EmptyString, _ => Some s
  | String a p', String b s' => if Ascii.eqb a b then string_prefix p' s' else None
  | _, _ => None
  end.

(** CreateDataProperty on the object under construction: a repeated key
    overwrites the earlier value and keeps its place. *)
Fixpoint obj_set (members : list (string * json)) (k : string) (v : json)
  : list (string * json) :=
  match members with
  | [] => [(k, v)]
  | (k', v') :: rest =>
      if String.eqb k' k then (k, v) :: rest else (k', v') :: obj_set rest k v
  end.

Fixpoint parse_value (fuel : nat) (s : string) : option (json * string) :=
  match fuel with
  | O => None
  | S n =>
      match skip_ws s with
      | EmptyString => None
      | String c rest as s' =>
          if Ascii.eqb c "{" then
            match skip_ws rest with
            | String "}" r => Some (JObj [], r)
            | _ => parse_members n [] rest
            end
          else if Ascii.eqb c "[" then
            match skip_ws rest with
            | String "]" r => Some (JArr [], r)
            | _ => parse_elements n [] rest
            end
          else if Ascii.eqb c dquote then
            '(str, r) ← parse_string_body rest; Some (JStr str, r)
          else if Ascii.eqb c "n" then r ← string_prefix "ull" rest; Some (JNull, r)
          else if Ascii.eqb c "t" then r ← string_prefix "rue" rest; Some (JBool true, r)
          else if Ascii.eqb c "f" then r ← string_prefix "alse" rest; Some (JBool false, r)
          else parse_number s'
      end
  end
with parse_members (fuel : nat) (acc : list (string * json)) (s : string)
  : option (json * string) :=
  match fuel with
  | O => None
  | S n =>
      match skip_ws s with
      | String c rest =>
          if Ascii.eqb c dquote then
            '(k, r1) ← parse_string_body rest;
            match skip_ws r1 with
            | String ":" r2 =>
                '(v, r3) ← parse_value n r2;
                match skip_ws r3 with
                | String "," r4 => parse_members n (obj_set acc k v) r4
                | String "}" r4 => Some (JObj (obj_set acc k v), r4)
                | _ => None
                end
            | _ => None
            end
          else None
      | EmptyString => None
      end
  end
with parse_elements (fuel : nat) (acc : list json) (s : string)
  : option (json * string) :=
  match fuel with
  | O => None
  | S n =>
      '(v, r1) ← parse_value n s;
      match skip_ws r1 with
      | String "," r2 => parse_elements n (acc ++ [v]) r2
      | String "]" r2 => Some (JArr (acc ++ [v]), r2)
      | _ => None
      end
  end.

(** [JSON.parse(text)]: one value surrounded by optional white space, a
    SyntaxError otherwise.  Two nested calls of the parser consume at least
    one character between them, hence the amount of fuel. *)
Definition JSON_parse (text : string) : outcome json :=
  match parse_value (2 * String.length text + 2) text with
  | Some (v, rest) =>
      match skip_ws rest with
      | EmptyString => Return v
      | _ => Throw "SyntaxError"
      end
  | None => Throw "SyntaxError"
  end.

(** ** Host model: file system and paths *)

(** Regular files by path; [can_mkdir] and [can_write] say which
    [fs.mkdirSync] and [fs.writeFileSync] calls the host lets through.
    Directories are not part of the model, and a refused call is modelled
    as leaving nothing behind: the properties below that speak of the
    content of a file are stated for calls that the host lets through. *)
Record FileSystem := {
  files : gmap string string;
  can_mkdir : string -> bool;
  can_write : string -> bool;
}.

Definition readFileSync (fs : FileSystem) (path : string) : outcome string :=
  match files fs !! path with
  | Some content => Return content
  | None => Throw "ENOENT"
  end.

Definition mkdirSync (fs : FileSystem) (dir : string) : outcome FileSystem :=
  if can_mkdir fs dir then Return fs else Throw "EACCES".

Definition writeFileSync (fs : FileSystem) (path content : string) : outcome FileSystem :=
  if can_write fs path
  then Return {| files := <[path := content]> (files fs);
                 can_mkdir := can_mkdir fs; can_write := can_write fs |}
  else Throw "EACCES".

(** [path.join(dir, name)], for a directory already in normal form (no
    trailing slash, no empty, [.] or [..] segment); the normalisation that
    [path.join] does otherwise is not modelled. *)
Definition path_join (dir name : string) : string := dir +:+ "/" +:+ name.

Fixpoint before_last_slash (s : string) : option string :=
  match s with
  | EmptyString => None
  | String c rest =>
      match before_last_slash rest with
      | Some d => Some (String c d)
      | None => if Ascii.eqb c "/" then Some EmptyString else None
      end
  end.

(** [path.dirname(p)] *)
Definition path_dirname (p : string) : string :=
  match before_last_slash p with
  | Some EmptyString => "/"
  | Some d => d
  | None => "."
  end.

(** ** Data model *)

Inductive Status := Running | Restarting | GaveUp | Stopped.

#[global] Instance Status_eq_dec : EqDecision Status.
Proof. solve_decision. Defined.

Definition status_string (st : Status) : string :=
  match st with
  | Running => "running"
  | Restarting => "restarting"
  | GaveUp => "gave-up"
  | Stopped => "stopped"
  end.

Record WatchdogState := {
  pid : Z;
  childPid : option Z;
  restarts : Z;
  lastCrashAt : option string;
  startedAt : string;
  status : Status;
}.

(** The state object as a JavaScript value, properties in creation order. *)
Definition state_json (st : WatchdogState) : json :=
  JObj [ ("pid", JNum (pid st));
         ("childPid", from_option JNum JNull (childPid st));
         ("restarts", JNum (restarts st));
         ("lastCrashAt", from_option JStr JNull (lastCrashAt st));
         ("startedAt", JStr (startedAt st));
         ("status", JStr (status_string (status st))) ].

Definition MAX_RESTARTS_PER_HOUR : Z := 5.
Definition STABLE_UPTIME_RESET_MS : Z := 300000.
Definition MAX_BACKOFF_MS : Z := 60000.
Definition INITIAL_BACKOFF_MS : Z := 1000.
Definition RESTART_WINDOW_MS : Z := 3600000.

Definition WATCHDOG_CHILD_ENV : string := "OPENCLAW_WATCHDOG_CHILD".

Record WatchdogOptions := {
  argv : option (list string);
  execPath : option string;
  execArgv : option (list string);
  stateDir : option string;
  env : option (gmap string string);
  maxRestartsPerHour : option Z;
  stableUptimeMs : option Z;
}.

(** The process globals and the two imported functions whose modules are not
    part of the sources at hand ([resolveStateDir] of config/paths and
    [isLikelySupervisedProcess] of process-respawn), taken as parameters. *)
Record Host := {
  process_pid : Z;
  process_argv : list string;
  process_execPath : string;
  process_execArgv : list string;
  process_env : gmap string string;
  resolveStateDir : string;
  isLikelySupervisedProcess : gmap string string -> bool;
}.

Inductive Signal := SIGTERM | SIGINT.

#[global] Instance Signal_eq_dec : EqDecision Signal.
Proof. solve_decision. Defined.

(** What the [watchdog] subsystem logger is asked to print. *)
Inductive LogEntry :=
| WarnWriteFailed (err : string)
| InfoSignal (sig : Signal)
| WarnChildError (err : string)
| InfoSpawned (child_pid : option Z)
| InfoExit (shutting_down : bool) (code : option Z) (signal : option string)
| WarnCrashed (code : option Z) (signal : option string)
| ErrorGivingUp (max_restarts : Z)
| InfoRestarting (delay : Z) (restart_no : Z).

(** ** State store *)

Section StateStore.
Context (host : Host).

Definition resolveWatchdogStatePath (stateDir : option string) : string :=
  let dir := default (resolveStateDir host) stateDir in
  path_join dir "watchdog.json".

(** Returns the file system after the call and what was logged. *)
Definition writeWatchdogState (st : WatchdogState) (stateDir : option string)
           (fs : FileSystem) : FileSystem * list LogEntry :=
  let statePath := resolveWatchdogStatePath stateDir in
  try_catch
    (fs1 ← mkdirSync fs (path_dirname statePath);
     fs2 ← writeFileSync fs1 statePath
             (JSON_stringify (state_json st) 2 +:+ str1 newline);
     Return (fs2, []))
    (fun err => (fs, [WarnWriteFailed err])).

(** The result is a JavaScript value; [JNull] is [null]. *)
Definition readWatchdogState (fs : FileSystem) (stateDir : option string)
  : outcome json :=
  let statePath := resolveWatchdogStatePath stateDir in
  Return (try_catch
            (content ← readFileSync fs statePath;
             JSON_parse content)
            (fun _ => JNull)).
End StateStore.

(** Build child argv by stripping --watchdog from parent args. *)
Definition buildChildArgv (argv : list string) : list string :=
  filter (fun arg => arg ≠ "--watchdog") argv.

(** ** Child process handles *)

(** A [ChildProcess] handle.  [cp_pid] is absent when the spawn failed;
    [exited] records that the handle's exit has been observed; [killed] is
    Node's flag of that name, set once a signal was successfully sent through
    the handle (it does not say that the process has terminated);
    [received] lists the signals delivered to the process by [kill]. *)
Record ChildProcess := {
  cp_pid : option Z;
  killed : bool;
  exited : bool;
  received : list Signal;
}.

(** The operating-system process behind the handle is running. *)
Definition alive (c : ChildProcess) : bool :=
  bool_decide (is_Some (cp_pid c)) && negb (exited c).

(** [child.kill(signal)]: sends the signal if the process is running and
    then sets [killed]; does nothing otherwise. *)
Definition kill (c : ChildProcess) (sig : Signal) : ChildProcess :=
  if alive c
  then {| cp_pid := cp_pid c; killed := true; exited := exited c;
          received := received c ++ [sig] |}
  else c.

Record SpawnCall := {
  spawn_execPath : string;
  spawn_args : list string;
  spawn_env : gmap string string;
}.

(** ** The supervisor *)

(** The closure variables of one [startGatewayWatchdog] call, followed by
    the part of the host it acts on: the file system, the log, whether the
    SIGTERM/SIGINT listeners are registered, the pending [setTimeout] (with
    its delay), whether the returned promise is resolved, and what has been
    observed so far: the [spawn] calls, the delays passed to [setTimeout],
    the arguments of the [onChildExit] calls and the number of [onGiveUp]
    calls. *)
Record Supervisor := {
  state : WatchdogState;
  restartTimestamps : list Z;
  backoffMs : Z;
  child : option ChildProcess;
  shuttingDown : bool;
  childStartedAt : Z;
  fs : FileSystem;
  logs : list LogEntry;
  listening : bool;
  timer : option Z;
  resolved : bool;
  spawnCalls : list SpawnCall;
  timeouts : list Z;
  exitHookCalls : list (option Z * option string);
  giveUpHookCalls : nat;
}.

Definition set_state (f : WatchdogState -> WatchdogState) (s : Supervisor) : Supervisor :=
  {| state := f (state s); restartTimestamps := restartTimestamps s;
     backoffMs := backoffMs s; child := child s; shuttingDown := shuttingDown s;
     childStartedAt := childStartedAt s; fs := fs s; logs := logs s;
     listening := listening s; timer := timer s; resolved := resolved s;
     spawnCalls := spawnCalls s; timeouts := timeouts s;
     exitHookCalls := exitHookCalls s; giveUpHookCalls := giveUpHookCalls s |}.

Definition set_restartTimestamps (ts : list Z) (s : Supervisor) : Supervisor :=
  {| state := state s; restartTimestamps := ts;
     backoffMs := backoffMs s; child := child s; shuttingDown := shuttingDown s;
     childStartedAt := childStartedAt s; fs := fs s; logs := logs s;
     listening := listening s; timer := timer s; resolved := resolved s;
     spawnCalls := spawnCalls s; timeouts := timeouts s;
     exitHookCalls := exitHookCalls s; giveUpHookCalls := giveUpHookCalls s |}.

Definition set_backoffMs (b : Z) (s : Supervisor) : Supervisor :=
  {| state := state s; restartTimestamps := restartTimestamps s;
     backoffMs := b; child := child s; shuttingDown := shuttingDown s;
     childStartedAt := childStartedAt s; fs := fs s; logs := logs s;
     listening := listening s; timer := timer s; resolved := resolved s;
     spawnCalls := spawnCalls s; timeouts := timeouts s;
     exitHookCalls := exitHookCalls s; giveUpHookCalls := giveUpHookCalls s |}.

Definition set_child (c : option ChildProcess) (s : Supervisor) : Supervisor :=
  {| state := state s; restartTimestamps := restartTimestamps s;
     backoffMs := backoffMs s; child := c; shuttingDown := shuttingDown s;
     childStartedAt := childStartedAt s; fs := fs s; logs := logs s;
     listening := listening s; timer := timer s; resolved := resolved s;
     spawnCalls := spawnCalls s; timeouts := timeouts s;
     exitHookCalls := exitHookCalls s; giveUpHookCalls := giveUpHookCalls s |}.

Definition set_shuttingDown (b : bool) (s : Supervisor) : Supervisor :=
  {| state := state s; restartTimestamps := restartTimestamps s;
     backoffMs := backoffMs s; child := child s; shuttingDown := b;
     childStartedAt := childStartedAt s; fs := fs s; logs := logs s;
     listening := listening s; timer := timer s; resolved := resolved s;
     spawnCalls := spawnCalls s; timeouts := timeouts s;
     exitHookCalls := exitHookCalls s; giveUpHookCalls := giveUpHookCalls s |}.

Definition set_childStartedAt (t : Z) (s : Supervisor) : Supervisor :=
  {| state := state s; restartTimestamps := restartTimestamps s;
     backoffMs := backoffMs s; child := child s; shuttingDown := shuttingDown s;
     childStartedAt := t; fs := fs s; logs := logs s;
     listening := listening s; timer := timer s; resolved := resolved s;
     spawnCalls := spawnCalls s; timeouts := timeouts s;
     exitHookCalls := exitHookCalls s; giveUpHookCalls := giveUpHookCalls s |}.

Definition set_fs (f : FileSystem) (s : Supervisor) : Supervisor :=
  {| state := state s; restartTimestamps := restartTimestamps s;
     backoffMs := backoffMs s; child := child s; shuttingDown := shuttingDown s;
     childStartedAt := childStartedAt s; fs := f; logs := logs s;
     listening := listening s; timer := timer s; resolved := resolved s;
     spawnCalls := spawnCalls s; timeouts := timeouts s;
     exitHookCalls := exitHookCalls s; giveUpHookCalls := giveUpHookCalls s |}.

(** [log.info], [log.warn], [log.error] *)
Definition log (entries : list LogEntry) (s : Supervisor) : Supervisor :=
  {| state := state s; restartTimestamps := restartTimestamps s;
     backoffMs := backoffMs s; child := child s; shuttingDown := shuttingDown s;
     childStartedAt := childStartedAt s; fs := fs s; logs := logs s ++ entries;
     listening := listening s; timer := timer s; resolved := resolved s;
     spawnCalls := spawnCalls s; timeouts := timeouts s;
     exitHookCalls := exitHookCalls s; giveUpHookCalls := giveUpHookCalls s |}.

Definition set_listening (b : bool) (s : Supervisor) : Supervisor :=
  {| state := state s; restartTimestamps := restartTimestamps s;
     backoffMs := backoffMs s; child := child s; shuttingDown := shuttingDown s;
     childStartedAt := childStartedAt s; fs := fs s; logs := logs s;
     listening := b; timer := timer s; resolved := resolved s;
     spawnCalls := spawnCalls s; timeouts := timeouts s;
     exitHookCalls := exitHookCalls s; giveUpHookCalls := giveUpHookCalls s |}.

Definition set_timer (t : option Z) (s : Supervisor) : Supervisor :=
  {| state := state s; restartTimestamps := restartTimestamps s;
     backoffMs := backoffMs s; child := child s; shuttingDown := shuttingDown s;
     childStartedAt := childStartedAt s; fs := fs s; logs := logs s;
     listening := listening s; timer := t; resolved := resolved s;
     spawnCalls := spawnCalls s; timeouts := timeouts s;
     exitHookCalls := exitHookCalls s; giveUpHookCalls := giveUpHookCalls s |}.

(** [resolve()] of the returned promise *)
Definition resolve (s : Supervisor) : Supervisor :=
  {| state := state s; restartTimestamps := restartTimestamps s;
     backoffMs := backoffMs s; child := child s; shuttingDown := shuttingDown s;
     childStartedAt := childStartedAt s; fs := fs s; logs := logs s;
     listening := listening s; timer := timer s; resolved := true;
     spawnCalls := spawnCalls s; timeouts := timeouts s;
     exitHookCalls := exitHookCalls s; giveUpHookCalls := giveUpHookCalls s |}.

(** [spawn(execPath, args, { env, stdio })] as seen from outside *)
Definition record_spawn (c : SpawnCall) (s : Supervisor) : Supervisor :=
  {| state := state s; restartTimestamps := restartTimestamps s;
     backoffMs := backoffMs s; child := child s; shuttingDown := shuttingDown s;
     childStartedAt := childStartedAt s; fs := fs s; logs := logs s;
     listening := listening s; timer := timer s; resolved := resolved s;
     spawnCalls := spawnCalls s ++ [c]; timeouts := timeouts s;
     exitHookCalls := exitHookCalls s; giveUpHookCalls := giveUpHookCalls s |}.

(** [setTimeout(callback, delay)] *)
Definition setTimeout (delay : Z) (s : Supervisor) : Supervisor :=
  {| state := state s; restartTimestamps := restartTimestamps s;
     backoffMs := backoffMs s; child := child s; shuttingDown := shuttingDown s;
     childStartedAt := childStartedAt s; fs := fs s; logs := logs s;
     listening := listening s; timer := Some delay; resolved := resolved s;
     spawnCalls := spawnCalls s; timeouts := timeouts s ++ [delay];
     exitHookCalls := exitHookCalls s; giveUpHookCalls := giveUpHookCalls s |}.

(** [opts.onChildExit?.(code, signal)] *)
Definition onChildExit (code : option Z) (signal : option string) (s : Supervisor)
  : Supervisor :=
  {| state := state s; restartTimestamps := restartTimestamps s;
     backoffMs := backoffMs s; child := child s; shuttingDown := shuttingDown s;
     childStartedAt := childStartedAt s; fs := fs s; logs := logs s;
     listening := listening s; timer := timer s; resolved := resolved s;
     spawnCalls := spawnCalls s; timeouts := timeouts s;
     exitHookCalls := exitHookCalls s ++ [(code, signal)];
     giveUpHookCalls := giveUpHookCalls s |}.

(** [opts.onGiveUp?.()] *)
Definition onGiveUp (s : Supervisor) : Supervisor :=
  {| state := state s; restartTimestamps := restartTimestamps s;
     backoffMs := backoffMs s; child := child s; shuttingDown := shuttingDown s;
     childStartedAt := childStartedAt s; fs := fs s; logs := logs s;
     listening := listening s; timer := timer s; resolved := resolved s;
     spawnCalls := spawnCalls s; timeouts := timeouts s;
     exitHookCalls := exitHookCalls s; giveUpHookCalls := S (giveUpHookCalls s) |}.

(** Updates of single fields of the state object. *)
Definition with_childPid (p : option Z) (st : WatchdogState) : WatchdogState :=
  {| pid := pid st; childPid := p; restarts := restarts st;
     lastCrashAt := lastCrashAt st; startedAt := startedAt st; status := status st |}.

Definition with_restarts (n : Z) (st : WatchdogState) : WatchdogState :=
  {| pid := pid st; childPid := childPid st; restarts := n;
     lastCrashAt := lastCrashAt st; startedAt := startedAt st; status := status st |}.

Definition with_lastCrashAt (t : option string) (st : WatchdogState) : WatchdogState :=
  {| pid := pid st; childPid := childPid st; restarts := restarts st;
     lastCrashAt := t; startedAt := startedAt st; status := status st |}.

Definition with_status (x : Status) (st : WatchdogState) : WatchdogState :=
  {| pid := pid st; childPid := childPid st; restarts := restarts st;
     lastCrashAt := lastCrashAt st; startedAt := startedAt st; status := x |}.

(** What the host supplies when a child is spawned: the pid of the new
    process (absent when the spawn failed) and the reading of [Date.now()]
    taken right after. *)
Record SpawnResult := {
  spawned_pid : option Z;
  now_spawned : Z;
}.

(** The clock readings taken while one exit event is handled, in program
    order: [new Date().toISOString()] for [lastCrashAt], then [Date.now()]
    for the uptime, inside [isRateLimited], and for the recorded restart. *)
Record ExitClock := {
  crash_iso : string;
  now_uptime : Z;
  now_check : Z;
  now_push : Z;
}.

(** The asynchronous entry points of the supervisor. *)
Inductive Event :=
| ChildExit (code : option Z) (signal : option string) (clock : ExitClock)
| ChildError (err : string)
| SignalReceived (sig : Signal)
| TimerFired (r : SpawnResult).

(** The loop of [isRateLimited]: drops leading timestamps while the first
    one is older than the window. *)
Fixpoint prune (now : Z) (timestamps : list Z) : list Z :=
  match timestamps with
  | t :: rest => if bool_decide (now - t > RESTART_WINDOW_MS) then prune now rest else timestamps
  | [] => []
  end.

Section Supervisor.
Context (host : Host) (opts : WatchdogOptions).

Definition the_env : gmap string string := default (process_env host) (env opts).
Definition maxRestarts : Z := default MAX_RESTARTS_PER_HOUR (maxRestartsPerHour opts).
Definition stableUptime : Z := default STABLE_UPTIME_RESET_MS (stableUptimeMs opts).

(** [writeWatchdogState(state, opts.stateDir)] *)
Definition persist (s : Supervisor) : Supervisor :=
  let '(fs', warnings) := writeWatchdogState host (state s) (stateDir opts) (fs s) in
  log warnings (set_fs fs' s).

Definition forwardSignal (sig : Signal) (s : Supervisor) : Supervisor :=
  match child s with
  | Some c => if killed c then s else set_child (Some (kill c sig)) s
  | None => s
  end.

(** [onSigterm] and [onSigint] *)
Definition onSignal (sig : Signal) (s : Supervisor) : Supervisor :=
  forwardSignal sig (set_shuttingDown true (log [InfoSignal sig] s)).

Definition cleanup (s : Supervisor) : Supervisor :=
  let s := set_listening false s in
  let s := if bool_decide (status (state s) ≠ GaveUp)
           then set_state (with_status Stopped) s else s in
  let s := set_state (with_childPid None) s in
  persist s.

(** Returns the supervisor after the call together with the new handle. *)
Definition spawnChild (r : SpawnResult) (s : Supervisor) : Supervisor * ChildProcess :=
  let execPath := default (process_execPath host) (execPath opts) in
  let execArgv := default (process_execArgv host) (execArgv opts) in
  let rawArgv := default (drop 1 (process_argv host)) (argv opts) in
  let childArgv := buildChildArgv rawArgv in
  let args := execArgv ++ childArgv in
  let childEnv := <[WATCHDOG_CHILD_ENV := "1"%string]> the_env in
  let s := record_spawn {| spawn_execPath := execPath; spawn_args := args;
                           spawn_env := childEnv |} s in
  let spawned := {| cp_pid := spawned_pid r; killed := false; exited := false;
                    received := [] |} in
  let s := set_state (with_childPid (cp_pid spawned)) s in
  let s := set_state (with_status Running) s in
  let s := persist s in
  let s := log [InfoSpawned (cp_pid spawned)] s in
  (s, spawned).

(** Prunes the recorded restarts and tells whether the cap is reached. *)
Definition isRateLimited (now : Z) (s : Supervisor) : Supervisor * bool :=
  let s := set_restartTimestamps (prune now (restartTimestamps s)) s in
  (s, bool_decide (Z.of_nat (length (restartTimestamps s)) >= maxRestarts)).

Definition runChild (r : SpawnResult) (s : Supervisor) : Supervisor :=
  let '(s, spawned) := spawnChild r s in
  let s := set_child (Some spawned) s in
  set_childStartedAt (now_spawned r) s.

(** The listener of the child's [exit] event. *)
Definition onExit (code : option Z) (signal : option string) (clock : ExitClock)
           (s : Supervisor) : Supervisor :=
  let s := onChildExit code signal s in
  if shuttingDown s || bool_decide (code = Some 0) then
    let s := log [InfoExit (shuttingDown s) code signal] s in
    let s := cleanup s in
    resolve s
  else
    let s := log [WarnCrashed code signal] s in
    let s := set_state (with_lastCrashAt (Some (crash_iso clock))) s in
    let uptime := now_uptime clock - childStartedAt s in
    let s := if bool_decide (uptime >= stableUptime)
             then set_backoffMs INITIAL_BACKOFF_MS s else s in
    let '(s, limited) := isRateLimited (now_check clock) s in
    if limited then
      let s := log [ErrorGivingUp maxRestarts] s in
      let s := set_state (with_status GaveUp) s in
      let s := set_state (with_childPid None) s in
      let s := persist s in
      let s := onGiveUp s in
      let s := cleanup s in
      resolve s
    else
      let s := set_restartTimestamps (restartTimestamps s ++ [now_push clock]) s in
      let s := set_state (fun st => with_restarts (restarts st + 1) st) s in
      let s := set_state (with_status Restarting) s in
      let s := persist s in
      let s := log [InfoRestarting (backoffMs s) (restarts (state s))] s in
      let s := setTimeout (backoffMs s) s in
      set_backoffMs (Z.min (backoffMs s * 2) MAX_BACKOFF_MS) s.

(** The callback passed to [setTimeout]. *)
Definition onTimer (r : SpawnResult) (s : Supervisor) : Supervisor :=
  let s := set_timer None s in
  if shuttingDown s then resolve (cleanup s) else runChild r s.

(** The listener of the child's [error] event. *)
Definition onError (err : string) (s : Supervisor) : Supervisor :=
  log [WarnChildError err] s.

(** One event.  An exit is delivered once per handle, to a handle that has
    not exited; a timer fires only while one is pending; a signal reaches
    the handlers only while they are registered. *)
Definition step (s : Supervisor) (e : Event) : option Supervisor :=
  match e with
  | ChildExit code signal clock =>
      match child s with
      | Some c =>
          if exited c then None
          else
            let c' := {| cp_pid := cp_pid c; killed := killed c; exited := true;
                         received := received c |} in
            Some (onExit code signal clock (set_child (Some c') s))
      | None => None
      end
  | ChildError err =>
      match child s with
      | Some _ => Some (onError err s)
      | None => None
      end
  | SignalReceived sig =>
      if listening s then Some (onSignal sig s) else None
  | TimerFired r =>
      match timer s with
      | Some _ => Some (onTimer r s)
      | None => None
      end
  end.

Fixpoint run (s : Supervisor) (events : list Event) : option Supervisor :=
  match events with
  | [] => Some s
  | e :: rest =>
      match step s e with
      | Some s' => run s' rest
      | None => None
      end
  end.

(** The synchronous part of [startGatewayWatchdog]; [None] when a
    supervised environment is detected and the call, having logged that,
    returns at once. *)
Definition startGatewayWatchdog (fs0 : FileSystem) (started_iso : string)
           (first : SpawnResult) : option Supervisor :=
  if isLikelySupervisedProcess host the_env then None
  else
    let s := {| state := {| pid := process_pid host; childPid := None; restarts := 0;
                            lastCrashAt := None; startedAt := started_iso;
                            status := Running |};
                restartTimestamps := [];
                backoffMs := INITIAL_BACKOFF_MS;
                child := None;
                shuttingDown := false;
                childStartedAt := 0;
                fs := fs0; logs := []; listening := false; timer := None;
                resolved := false; spawnCalls := []; timeouts := [];
                exitHookCalls := []; giveUpHookCalls := 0 |} in
    let s := persist s in
    let s := set_listening true s in
    Some (runChild first s).
End Supervisor.

(** ** The text of the state file *)

(** The characters that may follow a number in the state file. *)
Definition ends_number (c : ascii) : Prop := c = ","%char ∨ c = newline.

(** The characters a number can start with. *)
Definition starts_number (c : ascii) : bool :=
  Ascii.eqb c "-" || bool_decide (is_Some (digit_of_char c)).

(** One member of the object, on a line of its own. *)
Definition member_line (k value_text rest : string) : string :=
  String newline ("  " +:+ quote_json_string k +:+ ": " +:+ value_text +:+ rest).

(** The text of a field of the state object. *)
Definition number_text (z : option Z) : string :=
  match z with
  | Some n => string_of_Z n
  | None => "null"
  end.

Definition string_text (s : option string) : string :=
  match s with
  | Some x => quote_json_string x
  | None => "null"
  end.

(** The contents of the state file. *)
Definition state_text (st : WatchdogState) : string :=
  "{" +:+
  member_line "pid" (number_text (Some (pid st))) ("," +:+
  member_line "childPid" (number_text (childPid st)) ("," +:+
  member_line "restarts" (number_text (Some (restarts st))) ("," +:+
  member_line "lastCrashAt" (string_text (lastCrashAt st)) ("," +:+
  member_line "startedAt" (string_text (Some (startedAt st))) ("," +:+
  member_line "status" (string_text (Some (status_string (status st))))
    (String newline ("}" +:+ str1 newline))))))).

(** ** Runs of the supervisor *)

(** One crash of the child followed by its restart, as the host sees it. *)
Record Crash := {
  crash_code : option Z;
  crash_signal : option string;
  crash_clock : ExitClock;
  crash_respawn : SpawnResult;
}.

Definition crash_exit (x : Crash) : Event :=
  ChildExit (crash_code x) (crash_signal x) (crash_clock x).

Definition crash_events (x : Crash) : list Event :=
  [crash_exit x; TimerFired (crash_respawn x)].

Definition crash_cycles (l : list Crash) : list Event := l ≫= crash_events.

Definition is_crash (x : Crash) : Prop := crash_code x ≠ Some 0.

(** The restart is recorded at or after [t0] and the rate check is made no
    later than one window after [t0]. *)
Definition within_window (t0 : Z) (x : Crash) : Prop :=
  t0 ≤ now_push (crash_clock x) ∧ now_check (crash_clock x) ≤ t0 + RESTART_WINDOW_MS.

(** The handle of a child whose exit has been observed. *)
Definition exited_handle (c : ChildProcess) : ChildProcess :=
  {| cp_pid := cp_pid c; killed := killed c; exited := true; received := received c |}.

Definition is_exit (e : Event) : bool :=
  match e with
  | ChildExit _ _ _ => true
  | _ => false
  end.

(** The state object as [cleanup] leaves it. *)
Definition final_state (st : WatchdogState) : WatchdogState :=
  with_childPid None (if bool_decide (status st ≠ GaveUp) then with_status Stopped st else st).

Definition next_backoff (delay : Z) : Z := Z.min (delay * 2) MAX_BACKOFF_MS.

(** A child has been spawned and its exit is awaited. *)
Definition running_phase (s : Supervisor) : Prop :=
  ∃ c, child s = Some c ∧ exited c = false ∧ timer s = None ∧ resolved s = false
       ∧ status (state s) = Running ∧ listening s = true
       ∧ giveUpHookCalls s = 0%nat ∧ childPid (state s) = cp_pid c.

(** The last child has exited and a restart is scheduled. *)
Definition waiting_phase (s : Supervisor) : Prop :=
  ∃ c d, child s = Some c ∧ exited c = true ∧ timer s = Some d ∧ resolved s = false
         ∧ status (state s) = Restarting ∧ listening s = true
         ∧ giveUpHookCalls s = 0%nat.

(** The run is over: the promise is resolved. *)
Definition done_phase (s : Supervisor) : Prop :=
  ∃ c, child s = Some c ∧ exited c = true ∧ timer s = None ∧ resolved s = true
       ∧ listening s = false ∧ childPid (state s) = None
       ∧ (status (state s) = Stopped ∧ giveUpHookCalls s = 0%nat
          ∨ status (state s) = GaveUp ∧ giveUpHookCalls s = 1%nat).

Definition consistent (s : Supervisor) : Prop :=
  running_phase s ∨ waiting_phase s ∨ done_phase s.

Section RunModel.
Context (host : Host) (opts : WatchdogOptions).

(** The states of a run: those reached from start-up by a sequence of
    events. *)
Definition reachable (s : Supervisor) : Prop :=
  ∃ fs0 started_iso first events s0,
    startGatewayWatchdog host opts fs0 started_iso first = Some s0
    ∧ run host opts s0 events = Some s.

(** The reading of the signal contract under which every termination
    signal reaches a running child. *)
Definition forwards_every_signal : Prop :=
  ∀ s sig s' c,
    reachable s → child s = Some c → alive c = true →
    step host opts s (SignalReceived sig) = Some s' →
    ∃ c', child s' = Some c' ∧ received c' = received c ++ [sig].

(** The delay of the restart after crash [x], for a child started at
    [started] and a backoff [b] in effect when the crash is handled. *)
Definition restart_delay (b started : Z) (x : Crash) : Z :=
  if bool_decide (now_uptime (crash_clock x) - started >= stableUptime opts)
  then INITIAL_BACKOFF_MS else b.

(** The delays of a series of restarts. *)
Fixpoint restart_delays (b started : Z) (l : list Crash) : list Z :=
  match l with
  | [] => []
  | x :: l' =>
      let d := restart_delay b started x in
      d :: restart_delays (next_backoff d) (now_spawned (crash_respawn x)) l'
  end.

(** The restart timestamps on record after a series of restarts. *)
Fixpoint recorded_restarts (timestamps : list Z) (l : list Crash) : list Z :=
  match l with
  | [] => timestamps
  | x :: l' =>
      recorded_restarts
        (prune (now_check (crash_clock x)) timestamps ++ [now_push (crash_clock x)]) l'
  end.

(** Every crash of the series passes the rate check. *)
Fixpoint never_limited (timestamps : list Z) (l : list Crash) : Prop :=
  match l with
  | [] => True
  | x :: l' =>
      Z.of_nat (length (prune (now_check (crash_clock x)) timestamps)) < maxRestarts opts
      ∧ never_limited
          (prune (now_check (crash_clock x)) timestamps ++ [now_push (crash_clock x)]) l'
  end.

(** Every child of the series crashes before the stability threshold. *)
Fixpoint all_unstable (started : Z) (l : list Crash) : Prop :=
  match l with
  | [] => True
  | x :: l' =>
      now_uptime (crash_clock x) - started < stableUptime opts
      ∧ all_unstable (now_spawned (crash_respawn x)) l'
  end.
End RunModel.

(** ** Sample configuration, used to run the model on concrete inputs *)

Definition sample_host : Host :=
  {| process_pid := 4242;
     process_argv := ["openclaw"; "gateway"; "run"; "--watchdog"];
     process_execPath := "/usr/bin/node";
     process_execArgv := [];
     process_env := ∅;
     resolveStateDir := "/home/user/.openclaw";
     isLikelySupervisedProcess :=
       fun env => bool_decide (is_Some (env !! "LAUNCH_JOB_LABEL")) |}.

Definition sample_opts (max_restarts : option Z) : WatchdogOptions :=
  {| argv := Some ["gateway"; "run"; "--watchdog"];
     execPath := Some "/usr/bin/node";
     execArgv := Some [];
     stateDir := Some "/tmp/test-watchdog";
     env := Some ∅;
     maxRestartsPerHour := max_restarts;
     stableUptimeMs := None |}.

Definition empty_fs : FileSystem :=
  {| files := ∅; can_mkdir := fun _ => true; can_write := fun _ => true |}.

Definition sample_iso : string := "2026-02-25T00:00:00.000Z".

(** A child with pid 9999 spawned at time [t]. *)
Definition spawn_at (t : Z) : SpawnResult := {| spawned_pid := Some 9999; now_spawned := t |}.

(** A child that exits with code 1 at time [t] and is replaced at time [t']. *)
Definition crash_at (t t' : Z) : Crash :=
  {| crash_code := Some 1; crash_signal := None;
     crash_clock := {| crash_iso := sample_iso; now_uptime := t; now_check := t;
                       now_push := t |};
     crash_respawn := spawn_at t' |}.

(** The supervisor of the sample configuration right after start-up. *)
Definition sample_start (max_restarts : option Z) : option Supervisor :=
  startGatewayWatchdog sample_host (sample_opts max_restarts) empty_fs sample_iso
    (spawn_at 0).

(** Eight crashes in quick succession. *)
Definition rapid_crashes : list Crash :=
  [crash_at 10 1100; crash_at 1200 3300; crash_at 3400 7500; crash_at 7600 15700;
   crash_at 15800 31900; crash_at 32000 64100; crash_at 64200 124300;
   crash_at 124400 184500].

(** ** Notions for the properties of whole runs *)

(** The handle's exit has not been observed yet. *)
Definition pending (s : Supervisor) : bool :=
  match child s with
  | Some c => negb (exited c)
  | None => false
  end.

(** Two supervisors agree on everything but the file system and the log. *)
Definition same_control (s1 s2 : Supervisor) : Prop :=
  state s1 = state s2 ∧ restartTimestamps s1 = restartTimestamps s2
  ∧ backoffMs s1 = backoffMs s2 ∧ child s1 = child s2
  ∧ shuttingDown s1 = shuttingDown s2 ∧ childStartedAt s1 = childStartedAt s2
  ∧ listening s1 = listening s2 ∧ timer s1 = timer s2 ∧ resolved s1 = resolved s2
  ∧ spawnCalls s1 = spawnCalls s2 ∧ timeouts s1 = timeouts s2
  ∧ exitHookCalls s1 = exitHookCalls s2 ∧ giveUpHookCalls s1 = giveUpHookCalls s2.

Section RunEffects.
Context (host : Host) (opts : WatchdogOptions).

(** [writeWatchdogState(state, opts.stateDir)] on a given state object. *)
Definition written (st : WatchdogState) (f : FileSystem) : FileSystem * list LogEntry :=
  writeWatchdogState host st (stateDir opts) f.

(** The arguments of every [spawn] call of the run. *)
Definition spawn_call : SpawnCall :=
  {| spawn_execPath := default (process_execPath host) (execPath opts);
     spawn_args :=
       default (process_execArgv host) (execArgv opts)
       ++ buildChildArgv (default (drop 1 (process_argv host)) (argv opts));
     spawn_env := <[WATCHDOG_CHILD_ENV := "1"%string]> (the_env host opts) |}.

(** The delay of the restart after a crash handled in state [s]. *)
Definition crash_delay (clock : ExitClock) (s : Supervisor) : Z :=
  if bool_decide (now_uptime clock - childStartedAt s >= stableUptime opts)
  then INITIAL_BACKOFF_MS else backoffMs s.

(** The path of the state file and the text that stands for a state. *)
Definition state_path : string := resolveWatchdogStatePath host (stateDir opts).

Definition state_file_text (st : WatchdogState) : string :=
  JSON_stringify (state_json st) 2 +:+ str1 newline.

(** The host lets the state file be written. *)
Definition state_file_writable (f : FileSystem) : Prop :=
  can_mkdir f (path_dirname state_path) = true ∧ can_write f state_path = true.
End RunEffects.

(** ** Further sample inputs *)

(** A crash, the restart, and a termination signal for the second child. *)
Definition sample_events : list Event :=
  crash_cycles [crash_at 10 1100] ++ [SignalReceived SIGTERM].

(** A host on which no file can be written. *)
Definition readonly_fs : FileSystem :=
  {| files := ∅; can_mkdir := fun _ => true; can_write := fun _ => false |}.

(** ** Bonjour: rejections of the ciao library that are ignored
    ([src/infra/bonjour-ciao.ts]) *)

Definition CIAO_TRANSIENT_PATTERNS : list string :=
  ["CIAO ANNOUNCEMENT CANCELLED";
   "REACHED ILLEGAL STATE! IPV4 ADDRESS CHANGE";
   "REACHED ILLEGAL STATE! IPV4 ADDRESS CHANGED"]%string.

(** [pattern] occurs at the start of [message]. *)
Fixpoint starts_with (message pattern : string) : bool :=
  match pattern, message with
  | EmptyString, _ => true
  | String a pattern', String b message' => Ascii.eqb a b && starts_with message' pattern'
  | String _ _, EmptyString => false
  end.

(** [message.includes(pattern)] *)
Fixpoint includes (message pattern : string) : bool :=
  starts_with message pattern
  || match message with
     | String _ rest => includes rest pattern
     | EmptyString => false
     end.

Inductive BonjourLog :=
| LogWarn (text : string)
| LogDebug (text : string).

Section Bonjour.
(** [formatBonjourError] is defined outside this file and [toUpperCase] is
    the host's; both are taken as they come. *)
Context {Reason : Type} (formatBonjourError : Reason -> string)
        (toUpperCase : string -> string).

(** Returns the result together with what was logged. *)
Definition ignoreCiaoCancellationRejection (reason : Reason) : bool * list BonjourLog :=
  let message := toUpperCase (formatBonjourError reason) in
  let matched := existsb (fun pattern => includes message pattern) CIAO_TRANSIENT_PATTERNS in
  if negb matched then (false, [])
  else
    let formatted := formatBonjourError reason in
    if includes message "REACHED ILLEGAL STATE"
    then (true, [LogWarn ("bonjour: suppressed ciao network-change assertion (non-fatal): "
                          +:+ formatted)])
    else (true, [LogDebug ("bonjour: ignoring unhandled ciao rejection: " +:+ formatted)]).
End Bonjour.

(** * Properties *)

(** ** Child argument vector *)

Lemma buildChildArgv_maximal (argv l : list string) :
  l `sublist_of` argv → "--watchdog" ∉ l → l `sublist_of` buildChildArgv argv.
Proof.
  unfold buildChildArgv. induction 1 as [|x l1 l2 _ IH|x l1 l2 _ IH]; intros Hl.
  - constructor.
  - apply not_elem_of_cons in Hl as [Hx Hl].
    rewrite filter_cons_True by congruence. constructor. auto.
  - rewrite filter_cons. case_decide; [constructor|]; auto.
Qed.

(** C6. The child's argument vector never contains the marker flag
    "--watchdog", wherever and however often it occurs in the input; it is
    the input with exactly these arguments removed: a sub-sequence of the
    input (same arguments, same relative order) that contains every
    marker-free sub-sequence of the input.  Equivalently, each occurrence of
    the marker is dropped and every other argument is kept in place. *)
Theorem buildChildArgv_strips_exactly_marker (argv : list string) :
  ("--watchdog" ∉ buildChildArgv argv)
  ∧ (buildChildArgv argv `sublist_of` argv)
  ∧ (∀ l, (l `sublist_of` argv) ∧ ("--watchdog" ∉ l) ↔
          (l `sublist_of` buildChildArgv argv))
  ∧ (∀ pre post, buildChildArgv (pre ++ "--watchdog" :: post)
                 = buildChildArgv pre ++ buildChildArgv post)
  ∧ (∀ arg rest, arg ≠ "--watchdog" →
                 buildChildArgv (arg :: rest) = arg :: buildChildArgv rest).
Proof.
  assert (Hnot : "--watchdog" ∉ buildChildArgv argv).
  { unfold buildChildArgv. rewrite list_elem_of_filter. tauto. }
  assert (Hsub : buildChildArgv argv `sublist_of` argv) by apply sublist_filter.
  repeat split; try assumption.
  - intros [? ?]. by apply buildChildArgv_maximal.
  - intros. by etrans.
  - intros Hin. apply Hnot. eapply sublist_subseteq; eassumption.
  - intros pre post. unfold buildChildArgv.
    rewrite filter_app, filter_cons_False; [done|]. intros Hne. by apply Hne.
  - intros arg rest Hne. unfold buildChildArgv. by rewrite filter_cons_True.
Qed.

Example buildChildArgv_test :
  buildChildArgv ["--watchdog"; "gateway"; "run"; "--watchdog"; "--port"; "18789";
                  "--watchdog=1"; "--watchdog"]
  = ["gateway"; "run"; "--port"; "18789"; "--watchdog=1"].
Proof. reflexivity. Qed.

(** ** State store: reading *)

(** C7. [readWatchdogState] never throws.  It returns [null] when the state
    file is absent and when its contents are not JSON, and the parsed value
    otherwise. *)
Theorem readWatchdogState_never_throws (host : Host) (fs : FileSystem)
        (dir : option string) :
  readWatchdogState host fs dir =
  Return match files fs !! resolveWatchdogStatePath host dir with
         | None => JNull
         | Some content =>
             match JSON_parse content with
             | Return v => v
             | Throw _ => JNull
             end
         end.
Proof.
  unfold readWatchdogState, readFileSync.
  destruct (files fs !! resolveWatchdogStatePath host dir) as [content|]; simpl.
  - by destruct (JSON_parse content).
  - done.
Qed.

Example readWatchdogState_missing_file :
  readWatchdogState sample_host empty_fs (Some "/tmp/test-watchdog-read") = Return JNull.
Proof. reflexivity. Qed.

Example readWatchdogState_corrupted_file :
  readWatchdogState sample_host
    {| files := {[ "/tmp/test-watchdog-read/watchdog.json" := "not json" ]};
       can_mkdir := fun _ => true; can_write := fun _ => true |}
    (Some "/tmp/test-watchdog-read") = Return JNull.
Proof. vm_compute. reflexivity. Qed.

Example readWatchdogState_compact_file :
  readWatchdogState sample_host
    {| files := {[ "/tmp/test-watchdog-read/watchdog.json" :=
                   "{" +:+ quote_json_string "pid" +:+ ":1234,"
                       +:+ quote_json_string "childPid" +:+ ":5678,"
                       +:+ quote_json_string "status" +:+ ":"
                       +:+ quote_json_string "running" +:+ "}" ]};
       can_mkdir := fun _ => true; can_write := fun _ => true |}
    (Some "/tmp/test-watchdog-read")
  = Return (JObj [("pid", JNum 1234); ("childPid", JNum 5678);
                  ("status", JStr "running")]).
Proof. vm_compute. reflexivity. Qed.


(** ** State store: writing and reading back *)

#[local] Arguments String.append !_ _ / : simpl nomatch.

Lemma append_assoc (a b c : string) : (a +:+ b) +:+ c = a +:+ b +:+ c.
Proof. induction a as [|x a IH]; cbn [String.append]; congruence. Qed.

Lemma length_append (a b : string) :
  String.length (a +:+ b) = (String.length a + String.length b)%nat.
Proof. induction a as [|x a IH]; simpl; congruence. Qed.

(** A quoted string is read back as the string. *)
Lemma parse_string_body_escape (s rest : string) :
  parse_string_body (escape_string s +:+ String dquote rest) = Some (s, rest).
Proof.
  induction s as [|c s IH]; [reflexivity|].
  cbn [escape_string]. rewrite append_assoc.
  revert IH. generalize (escape_string s +:+ String dquote rest). intros X IH.
  destruct c as [[] [] [] [] [] [] [] []]; unfold escape_char; simpl; rewrite IH; reflexivity.
Qed.

Lemma scan_digits_string (d : uint) (c : ascii) (rest : string) :
  digit_of_char c = None →
  scan_digits (NilEmpty.string_of_uint d +:+ String c rest) = (d, String c rest).
Proof.
  intros Hc.
  induction d as [|d IH|d IH|d IH|d IH|d IH|d IH|d IH|d IH|d IH|d IH];
    cbn [NilEmpty.string_of_uint String.append scan_digits];
    [by rewrite Hc|cbn [digit_of_char]; by rewrite IH..].
Qed.

(** The digits of an integer: at least one, and no leading zero unless the
    integer is zero. *)
Lemma to_int_digits (z : Z) :
  ∃ d, d ≠ Nil ∧ unorm d = d ∧ (Z.to_int z = Pos d ∨ Z.to_int z = Neg d).
Proof.
  pose proof (DecimalZ.to_of (Z.to_int z)) as H. rewrite DecimalZ.of_to in H.
  destruct (Z.to_int z) as [d|d]; cbn [norm] in H.
  - exists d. injection H as H. split_and!; [|congruence|by left].
    intros ->. discriminate.
  - exists d. destruct (nzhead d) eqn:Hn; [discriminate|injection H as H..];
      (split_and!; [congruence|unfold unorm; rewrite Hn; congruence|by right]).
Qed.

Lemma parse_number_digits (neg : bool) (d : uint) (c : ascii) (rest : string) :
  d ≠ Nil → unorm d = d → ends_number c →
  parse_number ((if neg then "-" else "") +:+ NilEmpty.string_of_uint d +:+ String c rest)
  = Some (JNum (Z.of_int (if neg then Neg d else Pos d)), String c rest).
Proof.
  intros Hnil Hnorm Hc. unfold parse_number.
  assert (Hsign : parse_sign ((if neg then "-" else "") +:+ NilEmpty.string_of_uint d
                              +:+ String c rest)
                  = (neg, NilEmpty.string_of_uint d +:+ String c rest)).
  { destruct neg; [reflexivity|]. destruct d; try done; reflexivity. }
  rewrite Hsign, scan_digits_string by (destruct Hc as [-> | ->]; reflexivity).
  rewrite (bool_decide_false (d = Nil)), (bool_decide_true (unorm d = d)) by done.
  destruct Hc as [-> | ->]; unfold newline; simpl; rewrite !bool_decide_true by done;
    reflexivity.
Qed.

Lemma string_of_Z_digits (z : Z) :
  ∃ (neg : bool) d,
    d ≠ Nil ∧ unorm d = d
    ∧ string_of_Z z = (if neg then "-" else "") +:+ NilEmpty.string_of_uint d
    ∧ Z.of_int (if neg then Neg d else Pos d) = z.
Proof.
  destruct (to_int_digits z) as (d & Hnil & Hnorm & [E|E]);
    [exists false|exists true]; exists d; unfold string_of_Z;
    (split_and!; [done|done| |rewrite <- E; apply DecimalZ.of_to]);
    rewrite E; destruct d; done.
Qed.

(** An integer followed by a comma or a line break is read back. *)
Lemma parse_number_string_of_Z (z : Z) (c : ascii) (rest : string) :
  ends_number c →
  parse_number (string_of_Z z +:+ String c rest) = Some (JNum z, String c rest).
Proof.
  intros Hc. destruct (string_of_Z_digits z) as (neg & d & Hnil & Hnorm & -> & <-).
  rewrite append_assoc. by apply parse_number_digits.
Qed.

Lemma parse_value_number (n : nat) (c : ascii) (s : string) :
  starts_number c = true →
  parse_value (S n) (String c s) = parse_number (String c s).
Proof.
  destruct c as [[] [] [] [] [] [] [] []]; intros H; try discriminate H; reflexivity.
Qed.

Lemma string_of_Z_head (z : Z) (rest : string) :
  ∃ c s, string_of_Z z +:+ rest = String c s ∧ starts_number c = true.
Proof.
  destruct (string_of_Z_digits z) as (neg & d & Hnil & _ & -> & _).
  destruct neg; [by eexists _, _|]. destruct d; try done; by eexists _, _.
Qed.

Lemma parse_value_space (n : nat) (s : string) :
  parse_value (S n) (String " " s) = parse_value (S n) s.
Proof. reflexivity. Qed.

(** The three kinds of values of the state object. *)
Lemma parse_value_Z (n : nat) (z : Z) (c : ascii) (rest : string) :
  ends_number c →
  parse_value (S n) (String " " (string_of_Z z +:+ String c rest))
  = Some (JNum z, String c rest).
Proof.
  intros Hc. rewrite parse_value_space.
  destruct (string_of_Z_head z (String c rest)) as (ch & s & E & Hch).
  rewrite E, parse_value_number by done. rewrite <- E.
  by apply parse_number_string_of_Z.
Qed.

Lemma parse_value_null (n : nat) (rest : string) :
  parse_value (S n) (String " " ("null" +:+ rest)) = Some (JNull, rest).
Proof. reflexivity. Qed.

Lemma parse_value_string (n : nat) (s rest : string) :
  parse_value (S n) (String " " (quote_json_string s +:+ rest)) = Some (JStr s, rest).
Proof.
  rewrite parse_value_space. unfold quote_json_string.
  cbn [String.append]. rewrite append_assoc. cbn [str1 String.append].
  change (parse_value (S n) (String dquote ?x))
    with ('(str, r) ← parse_string_body x; Some (JStr str, r)).
  by rewrite parse_string_body_escape.
Qed.

Lemma parse_members_line (n : nat) (acc : list (string * json)) (k vt : string)
      (v : json) (c : ascii) (rest : string) :
  parse_value n (String " " (vt +:+ String c rest)) = Some (v, String c rest) →
  parse_members (S n) acc (member_line k vt (String c rest))
  = match skip_ws (String c rest) with
    | String "," r => parse_members n (obj_set acc k v) r
    | String "}" r => Some (JObj (obj_set acc k v), r)
    | _ => None
    end.
Proof.
  intros Hv. unfold member_line, quote_json_string.
  cbn [String.append]. rewrite append_assoc. cbn [str1 String.append].
  change (parse_members (S n) acc
            (String newline (String " " (String " " (String dquote ?x)))))
    with ('(k, r1) ← parse_string_body x;
          match skip_ws r1 with
          | String ":" r2 =>
              '(v, r3) ← parse_value n r2;
              match skip_ws r3 with
              | String "," r4 => parse_members n (obj_set acc k v) r4
              | String "}" r4 => Some (JObj (obj_set acc k v), r4)
              | _ => None
              end
          | _ => None
          end).
  rewrite parse_string_body_escape. cbn [mbind option_bind].
  change (skip_ws (String ":" ?x)) with (String ":" x). cbv beta iota.
  rewrite Hv. reflexivity.
Qed.

Lemma parse_members_comma (n : nat) (acc : list (string * json)) (k vt : string)
      (v : json) (rest : string) :
  parse_value n (String " " (vt +:+ String "," rest)) = Some (v, String "," rest) →
  parse_members (S n) acc (member_line k vt ("," +:+ rest))
  = parse_members n (obj_set acc k v) rest.
Proof.
  intros Hv. change ("," +:+ rest) with (String "," rest).
  rewrite (parse_members_line n acc k vt v "," rest Hv). reflexivity.
Qed.

Lemma parse_members_end (n : nat) (acc : list (string * json)) (k vt : string)
      (v : json) (rest : string) :
  parse_value n (String " " (vt +:+ String newline ("}" +:+ rest)))
  = Some (v, String newline ("}" +:+ rest)) →
  parse_members (S n) acc (member_line k vt (String newline ("}" +:+ rest)))
  = Some (JObj (obj_set acc k v), rest).
Proof.
  intros Hv. rewrite (parse_members_line n acc k vt v newline ("}" +:+ rest) Hv).
  reflexivity.
Qed.

Lemma parse_value_object (n : nat) (k vt rest : string) :
  parse_value (S n) ("{" +:+ member_line k vt rest)
  = parse_members n [] (member_line k vt rest).
Proof. reflexivity. Qed.

Lemma parse_value_number_text (n : nat) (z : option Z) (c : ascii) (rest : string) :
  ends_number c →
  parse_value (S n) (String " " (number_text z +:+ String c rest))
  = Some (from_option JNum JNull z, String c rest).
Proof.
  intros Hc. destruct z as [z|]; [by apply parse_value_Z|apply parse_value_null].
Qed.

Lemma parse_value_string_text (n : nat) (s : option string) (rest : string) :
  parse_value (S n) (String " " (string_text s +:+ rest))
  = Some (from_option JStr JNull s, rest).
Proof. destruct s as [s|]; [apply parse_value_string|apply parse_value_null]. Qed.

Lemma stringify_state (st : WatchdogState) :
  JSON_stringify (state_json st) 2 +:+ str1 newline = state_text st.
Proof.
  destruct st as [p cp r lc sa stt]. unfold state_text, member_line.
  destruct cp as [cp|], lc as [lc|]; cbn; unfold quote_json_string, str1;
    repeat (progress (rewrite ?append_assoc; cbn [String.append])); reflexivity.
Qed.

Lemma parse_state_text (n : nat) (st : WatchdogState) :
  parse_value (8 + n) (state_text st) = Some (state_json st, str1 newline).
Proof.
  unfold state_text. cbn [Nat.add]. rewrite parse_value_object.
  rewrite (parse_members_comma _ _ _ _ (JNum (pid st)))
    by (apply (parse_value_number_text _ (Some _)); by left).
  rewrite (parse_members_comma _ _ _ _ (from_option JNum JNull (childPid st)))
    by (apply parse_value_number_text; by left).
  rewrite (parse_members_comma _ _ _ _ (JNum (restarts st)))
    by (apply (parse_value_number_text _ (Some _)); by left).
  rewrite (parse_members_comma _ _ _ _ (from_option JStr JNull (lastCrashAt st)))
    by apply parse_value_string_text.
  rewrite (parse_members_comma _ _ _ _ (JStr (startedAt st)))
    by apply (parse_value_string_text _ (Some _)).
  rewrite (parse_members_end _ _ _ _ (JStr (status_string (status st))))
    by apply (parse_value_string_text _ (Some _)).
  reflexivity.
Qed.

Lemma state_text_length (st : WatchdogState) : (3 ≤ String.length (state_text st))%nat.
Proof. unfold state_text, member_line. cbn [String.append String.length]. lia. Qed.

(** The state file is parsed back to the state object. *)
Lemma parse_stringify_state (st : WatchdogState) :
  JSON_parse (JSON_stringify (state_json st) 2 +:+ str1 newline) = Return (state_json st).
Proof.
  rewrite stringify_state. unfold JSON_parse.
  pose proof (state_text_length st) as Hlen.
  replace (2 * String.length (state_text st) + 2)%nat
    with (8 + (2 * String.length (state_text st) - 6))%nat by lia.
  by rewrite parse_state_text.
Qed.

Lemma state_json_inj (st st' : WatchdogState) :
  state_json st = state_json st' → st = st'.
Proof.
  destruct st as [p cp r lc sa stt], st' as [p' cp' r' lc' sa' stt'].
  unfold state_json. cbn [pid childPid restarts lastCrashAt startedAt status].
  intros [= -> Hcp -> Hlc -> Hst].
  assert (cp = cp') as -> by (destruct cp, cp'; simplify_eq/=; done).
  assert (lc = lc') as -> by (destruct lc, lc'; simplify_eq/=; done).
  assert (stt = stt') as -> by (destruct stt, stt'; simplify_eq/=; done).
  reflexivity.
Qed.

(** C10. After a write that succeeded (nothing was logged),
    [readWatchdogState] on the same directory returns the state that was
    written: the pretty-printed text followed by a line break parses back to
    the state object, and the object determines every field of the
    state. *)
Theorem write_then_read_roundtrip (host : Host) (st : WatchdogState)
        (dir : option string) (fs fs' : FileSystem) :
  writeWatchdogState host st dir fs = (fs', []) →
  readWatchdogState host fs' dir = Return (state_json st)
  ∧ files fs' !! resolveWatchdogStatePath host dir
    = Some (JSON_stringify (state_json st) 2 +:+ str1 newline)
  ∧ (∀ st', state_json st' = state_json st → st' = st).
Proof.
  unfold writeWatchdogState, mkdirSync, writeFileSync.
  destruct (can_mkdir fs _); [|discriminate]. cbn [mbind outcome_bind].
  destruct (can_write fs _); [|discriminate]. cbn [mbind outcome_bind try_catch].
  intros [= Hfs].
  assert (Hfile : files fs' !! resolveWatchdogStatePath host dir
                  = Some (JSON_stringify (state_json st) 2 +:+ str1 newline)).
  { rewrite <- Hfs. cbn [files]. apply lookup_insert_eq. }
  split_and!.
  - unfold readWatchdogState, readFileSync. cbv zeta. rewrite Hfile.
    cbn [mbind outcome_bind]. by rewrite parse_stringify_state.
  - exact Hfile.
  - intros st' Heq. by apply state_json_inj.
Qed.

Lemma write_then_read_roundtrip_witness :
  ∃ st fs',
    writeWatchdogState sample_host st (Some "/tmp/test-watchdog") empty_fs = (fs', [])
    ∧ readWatchdogState sample_host fs' (Some "/tmp/test-watchdog")
      = Return (state_json st).
Proof.
  exists {| pid := 1234; childPid := Some 5678; restarts := 3;
            lastCrashAt := Some sample_iso; startedAt := sample_iso;
            status := Running |}.
  eexists. split; [reflexivity|].
  match goal with
  | |- readWatchdogState _ ?fs' _ = Return (state_json ?st) =>
      apply (write_then_read_roundtrip sample_host st (Some "/tmp/test-watchdog")
               empty_fs fs')
  end.
  reflexivity.
Defined.

(** ** The supervisor loop: basic facts *)

Section Run.
Context (host : Host) (opts : WatchdogOptions).

Lemma persist_eq s :
  persist host opts s
  = log (writeWatchdogState host (state s) (stateDir opts) (fs s)).2
        (set_fs (writeWatchdogState host (state s) (stateDir opts) (fs s)).1 s).
Proof. unfold persist. by destruct (writeWatchdogState _ _ _ _). Qed.

Lemma cleanup_eq s :
  cleanup host opts s
  = persist host opts (set_state final_state (set_listening false s)).
Proof.
  unfold cleanup, final_state, set_state, set_listening. simpl.
  destruct (bool_decide (status (state s) ≠ GaveUp)); reflexivity.
Qed.

(** What the exit listener does on the clean branch. *)
Lemma onExit_clean s code signal clock :
  shuttingDown s = true ∨ code = Some 0 →
  onExit host opts code signal clock s
  = resolve (cleanup host opts
               (log [InfoExit (shuttingDown s) code signal]
                    (onChildExit code signal s))).
Proof.
  intros Hclean. unfold onExit. cbv zeta.
  change (shuttingDown (onChildExit code signal s)) with (shuttingDown s).
  replace (shuttingDown s || bool_decide (code = Some 0)) with true; [done|].
  destruct Hclean as [->| ->]; [done|]. by rewrite orb_true_r.
Qed.

(** What the exit listener does on the crash branch. *)
Lemma onExit_crash s code signal clock :
  shuttingDown s = false → code ≠ Some 0 →
  onExit host opts code signal clock s
  = let s := onChildExit code signal s in
    let s := log [WarnCrashed code signal] s in
    let s := set_state (with_lastCrashAt (Some (crash_iso clock))) s in
    let uptime := now_uptime clock - childStartedAt s in
    let s := if bool_decide (uptime >= stableUptime opts)
             then set_backoffMs INITIAL_BACKOFF_MS s else s in
    let '(s, limited) := isRateLimited opts (now_check clock) s in
    if limited then
      resolve (cleanup host opts
        (onGiveUp (persist host opts
           (set_state (with_childPid None)
              (set_state (with_status GaveUp)
                 (log [ErrorGivingUp (maxRestarts opts)] s))))))
    else
      let s := set_restartTimestamps (restartTimestamps s ++ [now_push clock]) s in
      let s := set_state (fun st => with_restarts (restarts st + 1) st) s in
      let s := set_state (with_status Restarting) s in
      let s := persist host opts s in
      let s := log [InfoRestarting (backoffMs s) (restarts (state s))] s in
      let s := setTimeout (backoffMs s) s in
      set_backoffMs (Z.min (backoffMs s * 2) MAX_BACKOFF_MS) s.
Proof.
  intros Hsd Hcode. unfold onExit. cbv zeta.
  change (shuttingDown (onChildExit code signal s)) with (shuttingDown s).
  rewrite Hsd, bool_decide_false by done. reflexivity.
Qed.

Lemma step_exit s c code signal clock :
  child s = Some c → exited c = false →
  step host opts s (ChildExit code signal clock)
  = Some (onExit host opts code signal clock (set_child (Some (exited_handle c)) s)).
Proof. intros Hc Hex. unfold step. by rewrite Hc, Hex. Qed.

Lemma step_exit_inv s s' code signal clock :
  step host opts s (ChildExit code signal clock) = Some s' →
  ∃ c, child s = Some c ∧ exited c = false
       ∧ s' = onExit host opts code signal clock (set_child (Some (exited_handle c)) s).
Proof.
  unfold step. destruct (child s) as [c|]; [|done].
  destruct (exited c) eqn:Hex; [done|]. intros [= <-]. eauto.
Qed.

Lemma run_app events1 events2 s :
  run host opts s (events1 ++ events2)
  = run host opts s events1 ≫= fun s1 => run host opts s1 events2.
Proof.
  revert s. induction events1 as [|e events1 IH]; intros s; [done|].
  cbn [run app]. destruct (step host opts s e); [apply IH|done].
Qed.

Lemma run_cons s e events :
  run host opts s (e :: events)
  = step host opts s e ≫= fun s1 => run host opts s1 events.
Proof. cbn [run]. by destruct (step host opts s e). Qed.

Lemma run_single s e : run host opts s [e] = step host opts s e.
Proof. cbn [run]. by destruct (step host opts s e). Qed.

(** ** Phases of a run *)

Lemma start_running fs0 started_iso first s0 :
  startGatewayWatchdog host opts fs0 started_iso first = Some s0 →
  running_phase s0.
Proof.
  unfold startGatewayWatchdog. case_match; [done|]. intros [= <-].
  unfold runChild, spawnChild. rewrite !persist_eq.
  eexists. simpl. split_and!; reflexivity.
Qed.

Lemma clean_exit_done s c code signal clock :
  running_phase s → child s = Some c →
  shuttingDown s = true ∨ code = Some 0 →
  done_phase
    (onExit host opts code signal clock (set_child (Some (exited_handle c)) s)).
Proof.
  intros (c' & _ & _ & Ht & _ & Hst & _ & Hg & _) Hc Hclean.
  rewrite onExit_clean, cleanup_eq, persist_eq by exact Hclean.
  exists (exited_handle c). unfold final_state. simpl. rewrite Hst. simpl.
  split_and!; try done. by left.
Qed.

Lemma crash_exit_consistent s c code signal clock :
  running_phase s → child s = Some c →
  shuttingDown s = false → code ≠ Some 0 →
  consistent
    (onExit host opts code signal clock (set_child (Some (exited_handle c)) s)).
Proof.
  intros (c' & _ & _ & Ht & Hr & Hst & Hl & Hg & _) Hc Hsd Hcode.
  rewrite onExit_crash by done. unfold isRateLimited. cbv zeta.
  destruct (bool_decide (now_uptime clock - _ >= stableUptime opts));
    destruct (bool_decide (_ >= maxRestarts opts)).
  1,3: right; right; rewrite cleanup_eq, !persist_eq;
    exists (exited_handle c); unfold final_state; simpl;
    rewrite Hg; split_and!; try done; by right.
  all: right; left; rewrite persist_eq; eexists (exited_handle c), _; simpl;
    split_and!; done.
Qed.

Lemma step_consistent s e s' :
  consistent s → step host opts s e = Some s' → consistent s'.
Proof.
  intros Hs Hstep. destruct e as [code signal clock|err|sig|r].
  - (* exit *)
    apply step_exit_inv in Hstep as (c & Hc & Hex & ->).
    destruct Hs as [Hrun|[(c' & d & Hc' & Hex' & _)|(c' & Hc' & Hex' & _)]];
      [|congruence..].
    destruct (shuttingDown s) eqn:Hsd.
    { right; right. apply clean_exit_done; auto. }
    destruct (decide (code = Some 0)) as [Hcode|Hcode].
    { right; right. apply clean_exit_done; auto. }
    by apply crash_exit_consistent.
  - (* error *)
    unfold step in Hstep. destruct (child s) eqn:Hc; [|done].
    injection Hstep as <-. unfold onError.
    destruct Hs as [(c' & H)|[(c' & d & H)|(c' & H)]];
      [left; exists c'|right; left; exists c', d|right; right; exists c']; exact H.
  - (* signal *)
    unfold step in Hstep. destruct (listening s) eqn:Hl; [|done].
    injection Hstep as <-. unfold onSignal, forwardSignal.
    change (child (set_shuttingDown true (log [InfoSignal sig] s))) with (child s).
    destruct Hs as [(c & Hc & Hex & Ht & Hr & Hst & _ & Hg & Hp)
                   |[(c & d & Hc & Hex & Ht & Hr & Hst & _ & Hg)
                    |(c & Hc & Hex & Ht & Hr & Hl' & _)]]; [| |congruence].
    + left. rewrite Hc. unfold kill, alive.
      destruct (killed c); [|destruct (_ && _)]; eexists; simpl;
        split_and!; eauto.
    + right; left. rewrite Hc. unfold kill, alive. rewrite Hex, andb_false_r.
      destruct (killed c); do 2 eexists; simpl; split_and!; eauto.
  - (* timer *)
    unfold step in Hstep. destruct (timer s) eqn:Ht; [|done].
    injection Hstep as <-.
    destruct Hs as [(c & Hc & Hex & Ht' & _)
                   |[(c & d & Hc & Hex & _ & Hr & Hst & Hl & Hg)
                    |(c & Hc & Hex & Ht' & _)]]; [congruence| |congruence].
    unfold onTimer. cbv zeta.
    change (shuttingDown (set_timer None s)) with (shuttingDown s).
    destruct (shuttingDown s).
    + right; right. rewrite cleanup_eq, persist_eq.
      exists c. unfold final_state. simpl. rewrite Hst. simpl.
      split_and!; try done. by left.
    + left. unfold runChild, spawnChild. rewrite persist_eq.
      eexists. simpl. split_and!; done.
Qed.

Lemma run_consistent events : ∀ s s',
  consistent s → run host opts s events = Some s' → consistent s'.
Proof.
  induction events as [|e events IH]; intros s s' Hs Hrun.
  - by injection Hrun as <-.
  - rewrite run_cons in Hrun.
    destruct (step host opts s e) as [s1|] eqn:Hstep; [|done].
    eauto using step_consistent.
Qed.

Lemma reachable_consistent s : reachable host opts s → consistent s.
Proof.
  intros (fs0 & iso & first & events & s0 & Hstart & Hrun).
  eapply run_consistent; [|exact Hrun]. left. eauto using start_running.
Qed.

Lemma reachable_run s events s' :
  reachable host opts s → run host opts s events = Some s' → reachable host opts s'.
Proof.
  intros (fs0 & iso & first & events0 & s0 & Hstart & Hrun) Hrun'.
  exists fs0, iso, first, (events0 ++ events), s0. split; [done|].
  rewrite run_app, Hrun. exact Hrun'.
Qed.

(** In a finished run no event can occur any more, except for late
    [error] events of the last child. *)
Lemma done_no_step s e :
  done_phase s → (∀ err, e ≠ ChildError err) → step host opts s e = None.
Proof.
  intros (c & Hc & Hex & Ht & _ & Hl & _) Hne.
  destruct e as [| err | |]; unfold step; rewrite ?Hc, ?Hex, ?Ht, ?Hl; try done.
  by destruct (Hne err).
Qed.

Lemma done_run events : ∀ s s',
  done_phase s → run host opts s events = Some s' →
  done_phase s' ∧ state s' = state s ∧ spawnCalls s' = spawnCalls s.
Proof.
  induction events as [|e events IH]; intros s s' Hs Hrun.
  - by injection Hrun as <-.
  - rewrite run_cons in Hrun.
    destruct (step host opts s e) as [s1|] eqn:Hstep; [|done].
    destruct e as [| err | |];
      try (rewrite done_no_step in Hstep by done; discriminate).
    unfold step in Hstep. destruct (child s) eqn:Hc; [|done]. injection Hstep as <-.
    destruct (IH (onError err s) s') as (? & -> & ->); [exact Hs|exact Hrun|done].
Qed.

(** ** Clean exits *)

(** A write of the state file that the host lets through. *)
Lemma writeWatchdogState_permitted (st : WatchdogState) (f : FileSystem) :
  can_mkdir f (path_dirname (resolveWatchdogStatePath host (stateDir opts))) = true →
  can_write f (resolveWatchdogStatePath host (stateDir opts)) = true →
  writeWatchdogState host st (stateDir opts) f
  = ({| files := <[resolveWatchdogStatePath host (stateDir opts)
                   := JSON_stringify (state_json st) 2 +:+ str1 newline]> (files f);
        can_mkdir := can_mkdir f; can_write := can_write f |}, []).
Proof.
  intros Hdir Hfile. unfold writeWatchdogState, mkdirSync, writeFileSync. cbv zeta.
  rewrite Hdir. cbn [mbind outcome_bind]. by rewrite Hfile.
Qed.

(** C3. When a child exits while the shutdown flag is set, or with exit
    code 0, the supervisor finalizes as a clean stop, whatever the code or
    signal of the exit and however many restarts came before: the exit hook
    is called, cleanup runs (listeners removed, status [stopped], childPid
    cleared, state persisted), the promise is resolved, and neither a timer
    nor a spawn is issued.  Persisted: the state object is written after its
    last change, and where the host lets the state file be written the file
    holds that object and a reader gets status [stopped] and no child pid,
    the other fields being as before the exit. *)
Theorem clean_exit_stops (s s' : Supervisor) (code : option Z)
        (signal : option string) (clock : ExitClock) :
  reachable host opts s →
  step host opts s (ChildExit code signal clock) = Some s' →
  shuttingDown s = true ∨ code = Some 0 →
  status (state s') = Stopped
  ∧ childPid (state s') = None
  ∧ restarts (state s') = restarts (state s)
  ∧ lastCrashAt (state s') = lastCrashAt (state s)
  ∧ listening s' = false
  ∧ resolved s' = true
  ∧ timer s' = None
  ∧ timeouts s' = timeouts s
  ∧ spawnCalls s' = spawnCalls s
  ∧ giveUpHookCalls s' = giveUpHookCalls s
  ∧ exitHookCalls s' = exitHookCalls s ++ [(code, signal)]
  ∧ fs s' = (writeWatchdogState host (state s') (stateDir opts) (fs s)).1
  ∧ (∀ e, (∀ err, e ≠ ChildError err) → step host opts s' e = None)
  ∧ (can_mkdir (fs s) (path_dirname (resolveWatchdogStatePath host (stateDir opts)))
     = true →
     can_write (fs s) (resolveWatchdogStatePath host (stateDir opts)) = true →
     files (fs s') !! resolveWatchdogStatePath host (stateDir opts)
     = Some (JSON_stringify (state_json (state s')) 2 +:+ str1 newline)
     ∧ readWatchdogState host (fs s') (stateDir opts)
       = Return (JObj [ ("pid", JNum (pid (state s)));
                        ("childPid", JNull);
                        ("restarts", JNum (restarts (state s)));
                        ("lastCrashAt", from_option JStr JNull (lastCrashAt (state s)));
                        ("startedAt", JStr (startedAt (state s)));
                        ("status", JStr "stopped") ])
     ∧ logs s' = logs s ++ [InfoExit (shuttingDown s) code signal]).
Proof.
  intros Hreach Hstep Hclean.
  apply step_exit_inv in Hstep as (c & Hc & Hex & ->).
  destruct (reachable_consistent _ Hreach)
    as [Hrun|[(c' & d & Hc' & Hex' & _)|(c' & Hc' & Hex' & _)]]; [|congruence..].
  pose proof (clean_exit_done s c code signal clock Hrun Hc Hclean) as Hdone.
  destruct Hrun as (c' & _ & _ & Ht & _ & Hst & _).
  split_and!; try (intros e He; by apply done_no_step).
  13: {
    intros Hdir Hfile.
    assert (Hfs : files (fs (onExit host opts code signal clock
                               (set_child (Some (exited_handle c)) s)))
                  !! resolveWatchdogStatePath host (stateDir opts)
                  = Some (JSON_stringify
                            (state_json
                               (state (onExit host opts code signal clock
                                         (set_child (Some (exited_handle c)) s)))) 2
                          +:+ str1 newline)
                  ∧ logs (onExit host opts code signal clock
                            (set_child (Some (exited_handle c)) s))
                    = logs s ++ [InfoExit (shuttingDown s) code signal]).
    { rewrite onExit_clean, cleanup_eq, persist_eq by exact Hclean.
      cbn [fs logs state log resolve set_fs set_state set_listening onChildExit
           set_child shuttingDown].
      rewrite writeWatchdogState_permitted by assumption. cbn [fst snd files].
      split; [apply lookup_insert_eq|by rewrite app_nil_r]. }
    destruct Hfs as [Hfs Hlog]. split; [exact Hfs|]. split; [|exact Hlog].
    unfold readWatchdogState, readFileSync. cbv zeta. rewrite Hfs.
    cbn [mbind outcome_bind]. rewrite parse_stringify_state. cbn [try_catch].
    rewrite onExit_clean, cleanup_eq, persist_eq by exact Hclean.
    unfold final_state, state_json. simpl. rewrite Hst. done. }
  all: rewrite onExit_clean, cleanup_eq, persist_eq by exact Hclean;
    unfold final_state; simpl; rewrite ?Hst; done.
Qed.

(** ** Terminal statuses *)

(** C4. Cleanup sets the status to [stopped] only when it is not
    [gave-up].  In a run, a status [gave-up] is never changed again, and a
    finished run ends either [stopped] without having given up or
    [gave-up] after exactly one call of the give-up hook. *)
Theorem gave_up_is_preserved :
  (∀ s, status (state (cleanup host opts s))
        = if bool_decide (status (state s) = GaveUp) then GaveUp else Stopped)
  ∧ (∀ s events s',
       reachable host opts s → status (state s) = GaveUp →
       run host opts s events = Some s' → status (state s') = GaveUp)
  ∧ (∀ s, reachable host opts s → resolved s = true →
          status (state s) = Stopped ∧ giveUpHookCalls s = 0%nat
          ∨ status (state s) = GaveUp ∧ giveUpHookCalls s = 1%nat).
Proof.
  split_and!.
  - intros s. rewrite cleanup_eq, persist_eq. unfold final_state. simpl.
    destruct (status (state s)) eqn:E; simpl; done.
  - intros s events s' Hreach Hgave Hrun.
    destruct (reachable_consistent _ Hreach)
      as [(c & _ & _ & _ & _ & Hst & _)|[(c & d & _ & _ & _ & _ & Hst & _)|Hd]];
      [congruence..|].
    destruct (done_run _ _ _ Hd Hrun) as (_ & -> & _). exact Hgave.
  - intros s Hreach Hres.
    destruct (reachable_consistent _ Hreach)
      as [(c & _ & _ & _ & Hr & _)|[(c & d & _ & _ & _ & Hr & _)
                                   |(c & _ & _ & _ & _ & _ & _ & Hd)]];
      [congruence..|exact Hd].
Qed.

(** ** Termination signals *)

Lemma onSignal_eq sig s :
  onSignal sig s
  = let s' := set_shuttingDown true (log [InfoSignal sig] s) in
    match child s with
    | Some c => if killed c then s' else set_child (Some (kill c sig)) s'
    | None => s'
    end.
Proof. reflexivity. Qed.

(** What a signal handler leaves alone. *)
Lemma onSignal_frame sig s :
  shuttingDown (onSignal sig s) = true
  ∧ state (onSignal sig s) = state s ∧ fs (onSignal sig s) = fs s
  ∧ timer (onSignal sig s) = timer s ∧ listening (onSignal sig s) = listening s
  ∧ resolved (onSignal sig s) = resolved s
  ∧ spawnCalls (onSignal sig s) = spawnCalls s
  ∧ restartTimestamps (onSignal sig s) = restartTimestamps s
  ∧ timeouts (onSignal sig s) = timeouts s
  ∧ child (onSignal sig s)
    = match child s with
      | Some c => Some (if killed c then c else kill c sig)
      | None => None
      end.
Proof.
  rewrite onSignal_eq. cbv zeta.
  destruct (child s) as [c|] eqn:Hc; [destruct (killed c) eqn:Hk|];
    split_and!; try reflexivity; exact Hc.
Qed.

(** ** Spawn errors *)

Lemma run_without_exit events : ∀ s s',
  timer s = None → forallb (fun e => negb (is_exit e)) events = true →
  run host opts s events = Some s' →
  resolved s' = resolved s ∧ spawnCalls s' = spawnCalls s ∧ state s' = state s
  ∧ timer s' = None ∧ fs s' = fs s ∧ restartTimestamps s' = restartTimestamps s
  ∧ timeouts s' = timeouts s.
Proof.
  induction events as [|e events IH]; intros s s' Ht Hev Hrun.
  - by injection Hrun as <-.
  - apply andb_prop in Hev as [He Hev]. rewrite run_cons in Hrun.
    destruct (step host opts s e) as [s1|] eqn:Hstep; [|done].
    assert (resolved s1 = resolved s ∧ spawnCalls s1 = spawnCalls s
            ∧ state s1 = state s ∧ timer s1 = None ∧ fs s1 = fs s
            ∧ restartTimestamps s1 = restartTimestamps s
            ∧ timeouts s1 = timeouts s) as (E1 & E2 & E3 & E4 & E5 & E6 & E7).
    { destruct e as [| err | sig |]; unfold step in Hstep;
        [done| | |by rewrite Ht in Hstep].
      - destruct (child s); [|done]. by injection Hstep as <-.
      - destruct (listening s); [|done]. injection Hstep as <-.
        destruct (onSignal_frame sig s)
          as (_ & -> & -> & -> & _ & -> & -> & -> & -> & _). done. }
    destruct (IH _ _ E4 Hev Hrun) as (-> & -> & -> & -> & -> & -> & ->). done.
Qed.

(** C9. The listener of the child's [error] event only logs: every closure
    variable, the persisted state, the pending timer and the promise are
    left as they were.  Unless an exit event follows, the promise stays
    unresolved and nothing is spawned, whatever else happens. *)
Theorem child_error_only_logs (s s' : Supervisor) (err : string) :
  step host opts s (ChildError err) = Some s' →
  s' = log [WarnChildError err] s
  ∧ state s' = state s
  ∧ restartTimestamps s' = restartTimestamps s
  ∧ backoffMs s' = backoffMs s
  ∧ child s' = child s
  ∧ shuttingDown s' = shuttingDown s
  ∧ fs s' = fs s
  ∧ timer s' = timer s
  ∧ timeouts s' = timeouts s
  ∧ resolved s' = resolved s
  ∧ spawnCalls s' = spawnCalls s
  ∧ logs s' = logs s ++ [WarnChildError err]
  ∧ (∀ events s'',
       running_phase s →
       forallb (fun e => negb (is_exit e)) events = true →
       run host opts s' events = Some s'' →
       resolved s'' = false ∧ running_phase s''
       ∧ spawnCalls s'' = spawnCalls s ∧ state s'' = state s
       ∧ timeouts s'' = timeouts s).
Proof.
  unfold step. destruct (child s) eqn:Hc; [|done]. intros [= <-].
  split_and!; try reflexivity; try exact Hc. intros events s'' Hrunning Hev Hrun.
  pose proof Hrunning as (c0 & _ & _ & Ht & Hr & _).
  destruct (run_without_exit events (onError err s) s'' Ht Hev Hrun)
    as (E1 & E2 & E3 & E4 & E5 & E6 & E7).
  change (resolved s'' = resolved s) in E1. change (spawnCalls s'' = spawnCalls s) in E2.
  change (state s'' = state s) in E3. change (timeouts s'' = timeouts s) in E7.
  assert (Hcons : consistent s'').
  { eapply run_consistent; [|exact Hrun]. left.
    destruct Hrunning as (c' & H). exists c'. exact H. }
  split_and!; try congruence.
  destruct Hcons as [?|[(? & ? & _ & _ & Ht' & _)|(? & _ & _ & _ & Hr' & _)]];
    [done|congruence|congruence].
Qed.

(** ** Termination signals, continued *)

Lemma shutdown_run events : ∀ s s',
  shuttingDown s = true → run host opts s events = Some s' →
  shuttingDown s' = true ∧ spawnCalls s' = spawnCalls s.
Proof.
  induction events as [|e events IH]; intros s s' Hsd Hrun.
  - by injection Hrun as <-.
  - rewrite run_cons in Hrun.
    destruct (step host opts s e) as [s1|] eqn:Hstep; [|done].
    assert (shuttingDown s1 = true ∧ spawnCalls s1 = spawnCalls s) as [E1 E2].
    { destruct e as [code signal clock| err | sig | r].
      - apply step_exit_inv in Hstep as (c & Hc & Hex & ->).
        rewrite onExit_clean, cleanup_eq, persist_eq by (left; exact Hsd). done.
      - unfold step in Hstep. destruct (child s); [|done]. by injection Hstep as <-.
      - unfold step in Hstep. destruct (listening s); [|done]. injection Hstep as <-.
        destruct (onSignal_frame sig s) as (-> & _ & _ & _ & _ & _ & -> & _). done.
      - unfold step in Hstep. destruct (timer s); [|done]. injection Hstep as <-.
        unfold onTimer. cbv zeta.
        change (shuttingDown (set_timer None s)) with (shuttingDown s).
        rewrite Hsd, cleanup_eq, persist_eq. done. }
    destruct (IH _ _ E1 Hrun) as [-> ->]. done.
Qed.

(** C5, as the code has it.  A termination signal sets the shutdown flag
    and is forwarded with [kill] to the child handle, if there is one whose
    [killed] flag is not yet set: it then reaches a running child as the
    same signal and does nothing to a child that has exited.  A handle that
    already took a signal is left alone, so a second termination signal is
    not forwarded.  The handler touches nothing else (it sends no signal to
    the supervisor, spawns nothing, leaves the state object and the timer
    alone).  Once the flag is set it stays set and no child is spawned any
    more; a restart timer that fires then runs cleanup, resolves the
    promise and ends in a clean stop. *)
Theorem signal_sets_flag_and_forwards (s s' : Supervisor) (sig : Signal) :
  step host opts s (SignalReceived sig) = Some s' →
  shuttingDown s' = true
  ∧ child s' = match child s with
               | Some c => Some (if killed c then c else kill c sig)
               | None => None
               end
  ∧ (∀ c, child s = Some c → killed c = false → alive c = true →
          ∃ c', child s' = Some c' ∧ received c' = received c ++ [sig]
                ∧ killed c' = true)
  ∧ (∀ c, child s = Some c → alive c = false → child s' = Some c)
  ∧ state s' = state s ∧ fs s' = fs s ∧ timer s' = timer s
  ∧ listening s' = listening s ∧ resolved s' = resolved s
  ∧ spawnCalls s' = spawnCalls s
  ∧ (∀ events s'',
       run host opts s' events = Some s'' →
       shuttingDown s'' = true ∧ spawnCalls s'' = spawnCalls s)
  ∧ (∀ events s1 r s2,
       reachable host opts s →
       run host opts s' events = Some s1 →
       step host opts s1 (TimerFired r) = Some s2 →
       s2 = resolve (cleanup host opts (set_timer None s1))
       ∧ status (state s2) = Stopped ∧ resolved s2 = true ∧ timer s2 = None
       ∧ spawnCalls s2 = spawnCalls s).
Proof.
  intros Hstep. pose proof Hstep as Hstep0.
  unfold step in Hstep. destruct (listening s) eqn:Hl; [|done]. injection Hstep as <-.
  destruct (onSignal_frame sig s)
    as (Hsd & Hst & Hfs & Ht & Hli & Hr & Hsp & _ & _ & Hch).
  split_and!; try done.
  - intros c Hc Hk Ha. rewrite Hch, Hc, Hk. unfold kill. rewrite Ha.
    eexists. simpl. done.
  - intros c Hc Ha. rewrite Hch, Hc. unfold kill. rewrite Ha. by destruct (killed c).
  - congruence.
  - intros events s'' Hrun.
    destruct (shutdown_run _ _ _ Hsd Hrun) as [-> ->]. done.
  - intros events s1 r s2 Hreach Hrun Htimer.
    destruct (shutdown_run _ _ _ Hsd Hrun) as [Hsd1 Hsp1].
    assert (Hreach1 : reachable host opts s1).
    { eapply reachable_run; [|exact Hrun]. eapply reachable_run; [exact Hreach|].
      rewrite run_single. exact Hstep0. }
    unfold step in Htimer. destruct (timer s1) eqn:Ht1; [|done].
    injection Htimer as <-.
    unfold onTimer. cbv zeta.
    change (shuttingDown (set_timer None s1)) with (shuttingDown s1). rewrite Hsd1.
    destruct (reachable_consistent _ Hreach1)
      as [(c & _ & _ & Ht' & _)|[(c & d & _ & _ & _ & _ & Hst1 & _)
                                |(c & _ & _ & Ht' & _)]]; [congruence| |congruence].
    split_and!; try done.
    all: rewrite cleanup_eq, persist_eq; unfold final_state; simpl;
      rewrite ?Hst1; try done. congruence.
Qed.

(** ** Crashes and restarts *)

Lemma prune_length (now : Z) (timestamps : list Z) :
  (length (prune now timestamps) ≤ length timestamps)%nat.
Proof.
  induction timestamps as [|t ts IH]; cbn [prune length]; [done|].
  case_bool_decide; cbn [length]; lia.
Qed.

Lemma prune_sorted (now : Z) (timestamps : list Z) :
  StronglySorted Z.le timestamps →
  prune now timestamps = filter (fun t : Z => now - t ≤ RESTART_WINDOW_MS) timestamps.
Proof.
  induction 1 as [|t ts Hsorted IH Hle]; [done|].
  cbn [prune]. case_bool_decide as Hold.
  - rewrite filter_cons_False by lia. exact IH.
  - rewrite filter_cons_True by lia. f_equal. clear IH Hsorted.
    induction ts as [|t' ts IH]; [done|].
    apply Forall_cons in Hle as [Ht' Hle].
    rewrite filter_cons_True by lia. f_equal. auto.
Qed.

Lemma prune_none (now : Z) (timestamps : list Z) :
  Forall (fun t => now - t ≤ RESTART_WINDOW_MS) timestamps →
  prune now timestamps = timestamps.
Proof.
  destruct 1 as [|t ts Ht _]; cbn [prune]; [done|].
  by rewrite bool_decide_false by lia.
Qed.

(** A crash below the cap schedules a restart. *)
Lemma crash_schedules_restart s c x :
  child s = Some c → exited c = false →
  shuttingDown s = false → is_crash x →
  Z.of_nat (length (prune (now_check (crash_clock x)) (restartTimestamps s)))
    < maxRestarts opts →
  ∃ s1, step host opts s (crash_exit x) = Some s1
    ∧ status (state s1) = Restarting
    ∧ childPid (state s1) = childPid (state s)
    ∧ child s1 = Some (exited_handle c)
    ∧ timer s1 = Some (restart_delay opts (backoffMs s) (childStartedAt s) x)
    ∧ timeouts s1
      = timeouts s ++ [restart_delay opts (backoffMs s) (childStartedAt s) x]
    ∧ backoffMs s1
      = next_backoff (restart_delay opts (backoffMs s) (childStartedAt s) x)
    ∧ restartTimestamps s1
      = prune (now_check (crash_clock x)) (restartTimestamps s)
          ++ [now_push (crash_clock x)]
    ∧ restarts (state s1) = restarts (state s) + 1
    ∧ lastCrashAt (state s1) = Some (crash_iso (crash_clock x))
    ∧ fs s1 = (writeWatchdogState host (state s1) (stateDir opts) (fs s)).1
    ∧ shuttingDown s1 = false ∧ resolved s1 = resolved s
    ∧ spawnCalls s1 = spawnCalls s ∧ giveUpHookCalls s1 = giveUpHookCalls s
    ∧ listening s1 = listening s.
Proof.
  intros Hc Hex Hsd Hcode Hlen.
  destruct x as [code signal clock r]. unfold is_crash in Hcode.
  cbn [crash_code crash_clock] in Hcode, Hlen.
  unfold crash_exit, restart_delay, next_backoff.
  cbn [crash_code crash_signal crash_clock].
  rewrite (step_exit s c) by done. rewrite onExit_crash by done.
  unfold isRateLimited. cbv zeta.
  destruct (bool_decide (now_uptime clock - _ >= stableUptime opts));
  (rewrite bool_decide_false by (simpl; lia));
  rewrite persist_eq; eexists; (split; [reflexivity|]);
  simpl; split_and!; done.
Qed.

(** A crash at the cap ends the run. *)
Lemma crash_gives_up s c x :
  child s = Some c → exited c = false →
  shuttingDown s = false → is_crash x →
  Z.of_nat (length (prune (now_check (crash_clock x)) (restartTimestamps s)))
    >= maxRestarts opts →
  ∃ s2, step host opts s (crash_exit x) = Some s2
    ∧ status (state s2) = GaveUp
    ∧ childPid (state s2) = None
    ∧ giveUpHookCalls s2 = S (giveUpHookCalls s)
    ∧ resolved s2 = true
    ∧ listening s2 = false
    ∧ timer s2 = timer s
    ∧ timeouts s2 = timeouts s
    ∧ spawnCalls s2 = spawnCalls s
    ∧ restarts (state s2) = restarts (state s).
Proof.
  intros Hc Hex Hsd Hcode Hlen.
  destruct x as [code signal clock r]. unfold is_crash in Hcode.
  cbn [crash_code crash_clock] in Hcode, Hlen.
  unfold crash_exit. cbn [crash_code crash_signal crash_clock].
  rewrite (step_exit s c) by done. rewrite onExit_crash by done.
  unfold isRateLimited. cbv zeta.
  destruct (bool_decide (now_uptime clock - _ >= stableUptime opts));
  (rewrite bool_decide_true by (simpl; lia));
  rewrite cleanup_eq, !persist_eq; eexists; (split; [reflexivity|]);
  unfold final_state; simpl; split_and!; done.
Qed.

(** A crash below the cap is followed by a restart. *)
Lemma crash_cycle_restarts s x :
  running_phase s → shuttingDown s = false → is_crash x →
  Z.of_nat (length (prune (now_check (crash_clock x)) (restartTimestamps s)))
    < maxRestarts opts →
  ∃ s', run host opts s (crash_events x) = Some s'
    ∧ running_phase s' ∧ shuttingDown s' = false
    ∧ restartTimestamps s'
      = prune (now_check (crash_clock x)) (restartTimestamps s)
          ++ [now_push (crash_clock x)]
    ∧ timeouts s'
      = timeouts s ++ [restart_delay opts (backoffMs s) (childStartedAt s) x]
    ∧ backoffMs s'
      = next_backoff (restart_delay opts (backoffMs s) (childStartedAt s) x)
    ∧ childStartedAt s' = now_spawned (crash_respawn x)
    ∧ length (spawnCalls s') = S (length (spawnCalls s))
    ∧ restarts (state s') = restarts (state s) + 1.
Proof.
  intros Hrun Hsd Hcode Hlen.
  pose proof Hrun as (c & Hc & Hex & Ht & Hr & Hst & Hl & Hg & Hp).
  destruct (crash_schedules_restart s c x Hc Hex Hsd Hcode Hlen)
    as (s1 & Hstep & Hst1 & Hp1 & Hc1 & Ht1 & Hto1 & Hb1 & Hts1 & Hn1 & _ & _
        & Hsd1 & Hr1 & Hsp1 & Hg1 & Hl1).
  exists (runChild host opts (crash_respawn x) (set_timer None s1)).
  split.
  { unfold crash_events. rewrite run_cons, Hstep. cbn [mbind option_bind].
    rewrite run_single. unfold step. rewrite Ht1. unfold onTimer. cbv zeta.
    change (shuttingDown (set_timer None s1)) with (shuttingDown s1).
    by rewrite Hsd1. }
  unfold runChild, spawnChild. rewrite persist_eq. simpl.
  rewrite length_app. simpl.
  split_and!; try done; try congruence; try (rewrite Hsp1; lia).
  eexists. simpl. split_and!; try done; congruence.
Qed.

Lemma below_cap_never_limited l : ∀ timestamps,
  Z.of_nat (length timestamps + length l) ≤ maxRestarts opts →
  never_limited opts timestamps l.
Proof.
  induction l as [|x l IH]; cbn [never_limited length]; intros ts Hlen; [done|].
  pose proof (prune_length (now_check (crash_clock x)) ts).
  split; [lia|]. apply IH. rewrite length_app. cbn [length]. lia.
Qed.

Lemma crash_cycles_restart l : ∀ s,
  running_phase s → shuttingDown s = false → Forall is_crash l →
  never_limited opts (restartTimestamps s) l →
  ∃ s', run host opts s (crash_cycles l) = Some s'
    ∧ running_phase s' ∧ shuttingDown s' = false
    ∧ restartTimestamps s' = recorded_restarts (restartTimestamps s) l
    ∧ timeouts s'
      = timeouts s ++ restart_delays opts (backoffMs s) (childStartedAt s) l
    ∧ length (spawnCalls s') = (length (spawnCalls s) + length l)%nat
    ∧ restarts (state s') = restarts (state s) + Z.of_nat (length l).
Proof.
  induction l as [|x l IH]; intros s Hrun Hsd Hcrash Hlim.
  - exists s. cbn. rewrite app_nil_r. split_and!; try done; lia.
  - apply Forall_cons in Hcrash as [Hx Hcrash]. destruct Hlim as [Hlim1 Hlim].
    destruct (crash_cycle_restarts s x Hrun Hsd Hx Hlim1)
      as (s1 & Hrun1 & Hph1 & Hsd1 & Hts1 & Hto1 & Hb1 & Hcs1 & Hsp1 & Hn1).
    rewrite <- Hts1 in Hlim.
    destruct (IH s1 Hph1 Hsd1 Hcrash Hlim)
      as (s' & Hrun' & Hph' & Hsd' & Hts' & Hto' & Hsp' & Hn').
    exists s'. split.
    { change (crash_cycles (x :: l)) with (crash_events x ++ crash_cycles l).
      rewrite run_app, Hrun1. exact Hrun'. }
    split_and!; try done.
    + rewrite Hts', Hts1. done.
    + rewrite Hto', Hto1, Hb1, Hcs1, <- app_assoc. done.
    + rewrite Hsp', Hsp1. cbn [length]. lia.
    + rewrite Hn', Hn1. cbn [length]. lia.
Qed.

Lemma start_state fs0 started_iso first s0 :
  startGatewayWatchdog host opts fs0 started_iso first = Some s0 →
  running_phase s0 ∧ shuttingDown s0 = false ∧ restartTimestamps s0 = []
  ∧ backoffMs s0 = INITIAL_BACKOFF_MS ∧ timeouts s0 = []
  ∧ childStartedAt s0 = now_spawned first ∧ length (spawnCalls s0) = 1%nat
  ∧ restarts (state s0) = 0 ∧ giveUpHookCalls s0 = 0%nat.
Proof.
  intros Hstart. split; [by eapply start_running|].
  unfold startGatewayWatchdog in Hstart.
  destruct (isLikelySupervisedProcess _ _); [done|]. injection Hstart as <-.
  unfold runChild, spawnChild. rewrite !persist_eq. simpl. done.
Qed.

(** ** Backoff *)

Lemma unstable_delays l : ∀ started (j : nat),
  all_unstable opts started l →
  restart_delays opts (Z.min (1000 * 2 ^ Z.of_nat j) 60000) started l
  = (fun k : nat => Z.min (1000 * 2 ^ Z.of_nat k) 60000) <$> seq j (length l).
Proof.
  induction l as [|x l IH]; intros started j Hun; [done|].
  destruct Hun as [Hx Hun]. cbn [restart_delays length seq fmap list_fmap].
  unfold restart_delay.
  rewrite bool_decide_false by lia. f_equal.
  replace (next_backoff (Z.min (1000 * 2 ^ Z.of_nat j) 60000))
    with (Z.min (1000 * 2 ^ Z.of_nat (S j)) 60000); [by apply IH|].
  unfold next_backoff, MAX_BACKOFF_MS.
  replace (Z.of_nat (S j)) with (Z.of_nat j + 1) by lia.
  rewrite Z.pow_add_r by lia. change (2 ^ 1) with 2.
  assert (0 < 2 ^ Z.of_nat j) by (apply Z.pow_pos_nonneg; lia). lia.
Qed.

(** C2. The delay of a restart is the backoff in effect when the crash is
    handled: 1000 ms at start-up, set back to 1000 ms first when the child
    had been up for the stability threshold or longer, and doubled (up to
    60000 ms) only after the restart is scheduled, for the next crash.
    For every series of crashes that are each followed by a restart, the
    delays passed to [setTimeout] are [restart_delays]; when every child of
    the series crashes before the stability threshold they are
    1000, 2000, 4000, 8000, ... capped at 60000. *)
Theorem backoff_delay_sequence (fs0 : FileSystem) (started_iso : string)
        (first : SpawnResult) (s0 : Supervisor) (l : list Crash) :
  startGatewayWatchdog host opts fs0 started_iso first = Some s0 →
  Forall is_crash l →
  never_limited opts [] l →
  backoffMs s0 = 1000
  ∧ (∀ b started x, restart_delay opts b started x
                    = if bool_decide (now_uptime (crash_clock x) - started
                                      >= stableUptime opts)
                      then 1000 else b)
  ∧ (∀ b started x l',
       restart_delays opts b started (x :: l')
       = restart_delay opts b started x
           :: restart_delays opts (Z.min (restart_delay opts b started x * 2) 60000)
                             (now_spawned (crash_respawn x)) l')
  ∧ ∃ s', run host opts s0 (crash_cycles l) = Some s'
      ∧ timeouts s' = restart_delays opts 1000 (now_spawned first) l
      ∧ (all_unstable opts (now_spawned first) l →
         timeouts s'
         = (fun k : nat => Z.min (1000 * 2 ^ Z.of_nat k) 60000) <$> seq 0 (length l)).
Proof.
  intros Hstart Hcrash Hlim.
  destruct (start_state _ _ _ _ Hstart)
    as (Hph & Hsd & Hts & Hb & Hto & Hcs & _).
  rewrite <- Hts in Hlim.
  destruct (crash_cycles_restart l s0 Hph Hsd Hcrash Hlim)
    as (s' & Hrun & _ & _ & _ & Hto' & _).
  rewrite Hto, Hb, Hcs in Hto'. cbn [app] in Hto'.
  split_and!; try done.
  exists s'. split_and!; try done.
  intros Hun. rewrite Hto'. by apply (unstable_delays l _ 0%nat).
Qed.

(** ** Rate limit *)

Lemma recorded_within_window t0 l : ∀ timestamps,
  Forall (within_window t0) l → Forall (fun t => t0 ≤ t) timestamps →
  recorded_restarts timestamps l
  = timestamps ++ ((fun x => now_push (crash_clock x)) <$> l).
Proof.
  induction l as [|x l IH]; cbn [recorded_restarts fmap list_fmap];
    intros ts Hl Hts; [by rewrite app_nil_r|].
  apply Forall_cons in Hl as [[Hpush Hcheck] Hl].
  rewrite prune_none by (eapply Forall_impl; [exact Hts|]; cbv beta; intros; lia).
  rewrite IH, <- app_assoc; [done..|].
  apply Forall_app. split; [done|]. by repeat constructor.
Qed.

(** C1. The rate check first drops the recorded restarts that are older
    than the one-hour window (all of them, the record being in time order)
    and then reports a limit exactly when at least [maxRestarts] remain.
    The restart under consideration is appended only afterwards: each of
    the first [maxRestarts] crashes of a run is followed by a restart, and
    when these restarts lie within one window, the next crash gives up: the
    status becomes [gave-up], the give-up hook is called once, the promise
    is resolved and no child is spawned any more. *)
Theorem gives_up_after_cap (fs0 : FileSystem) (started_iso : string)
        (first : SpawnResult) (s0 : Supervisor) (l : list Crash) (last : Crash)
        (t0 : Z) :
  startGatewayWatchdog host opts fs0 started_iso first = Some s0 →
  Forall is_crash (l ++ [last]) →
  Z.of_nat (length l) = maxRestarts opts →
  Forall (within_window t0) (l ++ [last]) →
  (∀ now s,
     isRateLimited opts now s
     = (set_restartTimestamps (prune now (restartTimestamps s)) s,
        bool_decide (Z.of_nat (length (prune now (restartTimestamps s)))
                     >= maxRestarts opts)))
  ∧ (∀ now timestamps,
       StronglySorted Z.le timestamps →
       prune now timestamps
       = filter (fun t : Z => now - t ≤ RESTART_WINDOW_MS) timestamps)
  ∧ (∀ k, (k ≤ length l)%nat →
       ∃ sk, run host opts s0 (crash_cycles (take k l)) = Some sk
         ∧ running_phase sk
         ∧ restarts (state sk) = Z.of_nat k
         ∧ length (spawnCalls sk) = S k)
  ∧ ∃ s1 s2,
      run host opts s0 (crash_cycles l) = Some s1
      ∧ restartTimestamps s1 = (fun x => now_push (crash_clock x)) <$> l
      ∧ step host opts s1 (crash_exit last) = Some s2
      ∧ status (state s2) = GaveUp
      ∧ childPid (state s2) = None
      ∧ restarts (state s2) = maxRestarts opts
      ∧ giveUpHookCalls s2 = 1%nat
      ∧ resolved s2 = true
      ∧ timer s2 = None
      ∧ length (spawnCalls s2) = S (length l)
      ∧ (∀ e, (∀ err, e ≠ ChildError err) → step host opts s2 e = None)
      ∧ (∀ events s3, run host opts s2 events = Some s3 →
                      spawnCalls s3 = spawnCalls s2 ∧ state s3 = state s2).
Proof.
  intros Hstart Hcrash Hcap Hwin.
  apply Forall_app in Hcrash as [Hcrash Hlast]. apply Forall_cons in Hlast as [Hlast _].
  apply Forall_app in Hwin as [Hwin Hwlast]. apply Forall_cons in Hwlast as [Hwlast _].
  destruct (start_state _ _ _ _ Hstart)
    as (Hph & Hsd & Hts & Hb & Hto & Hcs & Hsp & Hn & Hg).
  split_and!.
  - reflexivity.
  - apply prune_sorted.
  - intros k Hk.
    destruct (crash_cycles_restart (take k l) s0 Hph Hsd)
      as (sk & Hrun & Hphk & _ & _ & _ & Hspk & Hnk).
    { by apply Forall_take. }
    { apply below_cap_never_limited. rewrite Hts, length_take. cbn [length]. lia. }
    exists sk. rewrite length_take in Hspk, Hnk.
    split_and!; try done; lia.
  - destruct (crash_cycles_restart l s0 Hph Hsd Hcrash)
      as (s1 & Hrun & Hph1 & Hsd1 & Hts1 & _ & Hsp1 & Hn1).
    { apply below_cap_never_limited. rewrite Hts. cbn [length]. lia. }
    rewrite Hts, (recorded_within_window t0) in Hts1 by done. cbn [app] in Hts1.
    pose proof Hph1 as (c & Hc & Hex & Ht1 & _ & _ & _ & Hg1 & _).
    destruct (crash_gives_up s1 c last Hc Hex Hsd1 Hlast)
      as (s2 & Hstep & Hst2 & Hp2 & Hg2 & Hr2 & Hl2 & Ht2 & _ & Hsp2 & Hn2).
    { rewrite Hts1, prune_none, length_fmap; [lia|].
      apply Forall_fmap. eapply Forall_impl; [exact Hwin|].
      intros x [Hpush _]. destruct Hwlast as [_ Hcheck]. cbv beta. unfold compose. lia. }
    assert (Hdone : done_phase s2).
    { assert (Hcons : consistent s2).
      { eapply step_consistent; [|exact Hstep]. by left. }
      destruct Hcons as [(? & _ & _ & _ & Hr & _)|[(? & ? & _ & _ & _ & Hr & _)|Hd]];
        [congruence..|exact Hd]. }
    exists s1, s2. split_and!; try done; try congruence; try lia.
    + rewrite Hsp2, Hsp1, Hsp. lia.
    + intros e He. by apply done_no_step.
    + intros events s3 Hrun3.
      destruct (done_run _ _ _ Hdone Hrun3) as (_ & -> & ->). done.
Qed.
End Run.

(** ** Runs of the sample configuration *)

Lemma start_reachable host opts fs0 started_iso first s0 :
  startGatewayWatchdog host opts fs0 started_iso first = Some s0 →
  reachable host opts s0.
Proof. intros Hstart. by exists fs0, started_iso, first, [], s0. Qed.

Lemma sample_start_defined max_restarts :
  ∃ s0, sample_start max_restarts = Some s0.
Proof. eexists. reflexivity. Defined.

(** Three crashes within a few seconds under a cap of two restarts: two
    restarts, then the supervisor gives up. *)
Lemma gives_up_after_cap_witness :
  ∃ s0, sample_start (Some 2) = Some s0
    ∧ ∃ s1 s2,
        run sample_host (sample_opts (Some 2)) s0
            (crash_cycles [crash_at 10 1100; crash_at 1200 3400]) = Some s1
        ∧ step sample_host (sample_opts (Some 2)) s1 (crash_exit (crash_at 3500 0))
          = Some s2
        ∧ status (state s2) = GaveUp
        ∧ giveUpHookCalls s2 = 1%nat
        ∧ length (spawnCalls s2) = 3%nat
        ∧ resolved s2 = true.
Proof.
  destruct (sample_start_defined (Some 2)) as [s0 Hs0]. exists s0. split; [exact Hs0|].
  destruct (gives_up_after_cap sample_host (sample_opts (Some 2)) empty_fs
              sample_iso (spawn_at 0) s0 [crash_at 10 1100; crash_at 1200 3400]
              (crash_at 3500 0) 0)
    as (_ & _ & _ & s1 & s2 & Hrun & _ & Hstep & Hst & _ & _ & Hg & Hr & _ & Hsp & _).
  - exact Hs0.
  - repeat constructor; discriminate.
  - reflexivity.
  - repeat constructor; vm_compute; discriminate.
  - exists s1, s2. split_and!; assumption.
Defined.

(** Eight crashes in quick succession under a cap of ten restarts. *)
Lemma backoff_delay_sequence_witness :
  ∃ s0, sample_start (Some 10) = Some s0
    ∧ ∃ s', run sample_host (sample_opts (Some 10)) s0 (crash_cycles rapid_crashes)
            = Some s'
        ∧ timeouts s' = [1000; 2000; 4000; 8000; 16000; 32000; 60000; 60000].
Proof.
  destruct (sample_start_defined (Some 10)) as [s0 Hs0]. exists s0. split; [exact Hs0|].
  destruct (backoff_delay_sequence sample_host (sample_opts (Some 10)) empty_fs
              sample_iso (spawn_at 0) s0 rapid_crashes)
    as (_ & _ & _ & s' & Hrun & _ & Hdelays).
  - exact Hs0.
  - repeat constructor; discriminate.
  - vm_compute. repeat split.
  - exists s'. split; [exact Hrun|]. apply Hdelays. vm_compute. repeat split.
Defined.

(** A child that is told to stop exits on the signal: a clean stop, and
    the state file says so. *)
Lemma clean_exit_stops_witness :
  ∃ s0 s1 s2, sample_start None = Some s0
    ∧ step sample_host (sample_opts None) s0 (SignalReceived SIGTERM) = Some s1
    ∧ step sample_host (sample_opts None) s1
        (ChildExit None (Some "SIGTERM") (crash_clock (crash_at 50 0))) = Some s2
    ∧ status (state s2) = Stopped ∧ resolved s2 = true ∧ timer s2 = None
    ∧ readWatchdogState sample_host (fs s2) (stateDir (sample_opts None))
      = Return (JObj [ ("pid", JNum 4242); ("childPid", JNull); ("restarts", JNum 0);
                       ("lastCrashAt", JNull); ("startedAt", JStr sample_iso);
                       ("status", JStr "stopped") ]).
Proof.
  assert (∃ s0 s1 s2, sample_start None = Some s0
            ∧ step sample_host (sample_opts None) s0 (SignalReceived SIGTERM) = Some s1
            ∧ shuttingDown s1 = true
            ∧ step sample_host (sample_opts None) s1
                (ChildExit None (Some "SIGTERM") (crash_clock (crash_at 50 0))) = Some s2
            ∧ can_mkdir (fs s1)
                (path_dirname
                   (resolveWatchdogStatePath sample_host (stateDir (sample_opts None))))
              = true
            ∧ can_write (fs s1)
                (resolveWatchdogStatePath sample_host (stateDir (sample_opts None)))
              = true
            ∧ pid (state s1) = 4242 ∧ restarts (state s1) = 0
            ∧ lastCrashAt (state s1) = None ∧ startedAt (state s1) = sample_iso)
    as (s0 & s1 & s2 & Hs0 & Hs1 & Hsd & Hs2 & Hdir & Hfile & Hpid & Hn & Hlast & Hiso).
  { do 3 eexists. split; [vm_compute; reflexivity|].
    split; [vm_compute; reflexivity|]. split; [vm_compute; reflexivity|].
    split; [vm_compute; reflexivity|]. split; [vm_compute; reflexivity|].
    split; [vm_compute; reflexivity|]. split; [vm_compute; reflexivity|].
    split; [vm_compute; reflexivity|]. split; vm_compute; reflexivity. }
  destruct (clean_exit_stops sample_host (sample_opts None) s1 s2 None (Some "SIGTERM")
              (crash_clock (crash_at 50 0)))
    as (Hst & _ & _ & _ & _ & Hr & Ht & _ & _ & _ & _ & _ & _ & Hfiles).
  - eapply reachable_run; [eapply start_reachable; exact Hs0|].
    rewrite run_single. exact Hs1.
  - exact Hs2.
  - left. exact Hsd.
  - destruct (Hfiles Hdir Hfile) as (_ & Hread & _).
    rewrite Hpid, Hn, Hlast, Hiso in Hread.
    exists s0, s1, s2. split_and!; assumption.
Defined.

(** A spawn error on the first child. *)
Lemma child_error_only_logs_witness :
  ∃ s0 s1, sample_start None = Some s0
    ∧ step sample_host (sample_opts None) s0 (ChildError "spawn ENOENT") = Some s1
    ∧ state s1 = state s0 ∧ resolved s1 = resolved s0 ∧ timer s1 = timer s0
    ∧ spawnCalls s1 = spawnCalls s0.
Proof.
  assert (∃ s0 s1, sample_start None = Some s0
            ∧ step sample_host (sample_opts None) s0 (ChildError "spawn ENOENT") = Some s1)
    as (s0 & s1 & Hs0 & Hs1).
  { do 2 eexists. split; vm_compute; reflexivity. }
  destruct (child_error_only_logs sample_host (sample_opts None) s0 s1 "spawn ENOENT" Hs1)
    as (_ & Hst & _ & _ & _ & _ & _ & Ht & _ & Hr & Hsp & _).
  exists s0, s1. split_and!; assumption.
Defined.

(** SIGTERM while the first child is running. *)
Lemma signal_sets_flag_and_forwards_witness :
  ∃ s0 s1, sample_start None = Some s0
    ∧ step sample_host (sample_opts None) s0 (SignalReceived SIGTERM) = Some s1
    ∧ shuttingDown s1 = true ∧ state s1 = state s0
    ∧ spawnCalls s1 = spawnCalls s0.
Proof.
  assert (∃ s0 s1, sample_start None = Some s0
            ∧ step sample_host (sample_opts None) s0 (SignalReceived SIGTERM) = Some s1)
    as (s0 & s1 & Hs0 & Hs1).
  { do 2 eexists. split; vm_compute; reflexivity. }
  destruct (signal_sets_flag_and_forwards sample_host (sample_opts None) s0 s1 SIGTERM Hs1)
    as (Hsd & _ & _ & _ & Hst & _ & _ & _ & _ & Hsp & _).
  exists s0, s1. split_and!; assumption.
Defined.

(** C5, as stated, fails: SIGTERM and then SIGINT arrive while the first
    child is still running; the second signal is received by the supervisor
    and is not forwarded, the [killed] flag of the handle being set. *)
Lemma second_signal_not_forwarded :
  ¬ forwards_every_signal sample_host (sample_opts None).
Proof.
  intros Hall.
  assert (∃ s0 s1 s2 c,
            sample_start None = Some s0
            ∧ step sample_host (sample_opts None) s0 (SignalReceived SIGTERM) = Some s1
            ∧ child s1 = Some c ∧ alive c = true ∧ received c = [SIGTERM]
            ∧ step sample_host (sample_opts None) s1 (SignalReceived SIGINT) = Some s2
            ∧ child s2 = Some c)
    as (s0 & s1 & s2 & c & Hs0 & Hs1 & Hc & Ha & Hrecv & Hs2 & Hc2).
  { do 4 eexists. split; [vm_compute; reflexivity|].
    split; [vm_compute; reflexivity|].
    split; [vm_compute; reflexivity|].
    split; [vm_compute; reflexivity|].
    split; [vm_compute; reflexivity|].
    split; vm_compute; reflexivity. }
  destruct (Hall s1 SIGINT s2 c) as (c' & Hc' & Hrecv'); try assumption.
  - eapply reachable_run; [eapply start_reachable; exact Hs0|].
    rewrite run_single. exact Hs1.
  - rewrite Hc2 in Hc'. injection Hc' as <-. rewrite Hrecv in Hrecv'. discriminate.
Qed.

(** C8 fails on the restart path: after the first child (pid 9999) has
    crashed, the state with status [restarting] still carries its pid, in
    memory and in the state file, although no child is running. *)
Theorem restarting_state_keeps_pid_of_exited_child :
  ∃ s0 s1 c, sample_start None = Some s0
    ∧ step sample_host (sample_opts None) s0 (crash_exit (crash_at 10 1100)) = Some s1
    ∧ child s1 = Some c ∧ alive c = false
    ∧ status (state s1) = Restarting
    ∧ childPid (state s1) = Some 9999
    ∧ readWatchdogState sample_host (fs s1) (Some "/tmp/test-watchdog")
      = Return (JObj [ ("pid", JNum 4242); ("childPid", JNum 9999);
                       ("restarts", JNum 1); ("lastCrashAt", JStr sample_iso);
                       ("startedAt", JStr sample_iso);
                       ("status", JStr "restarting") ]).
Proof.
  do 3 eexists. split; [vm_compute; reflexivity|].
  split; [vm_compute; reflexivity|].
  split; [vm_compute; reflexivity|].
  split_and!; vm_compute; reflexivity.
Qed.

(** * Further properties of the supervisor *)


(** ** The effect of one event, field by field *)

Section Effects.
Context (host : Host) (opts : WatchdogOptions).

Lemma supervisor_eq (s1 s2 : Supervisor) :
  state s1 = state s2 → restartTimestamps s1 = restartTimestamps s2 →
  backoffMs s1 = backoffMs s2 → child s1 = child s2 →
  shuttingDown s1 = shuttingDown s2 → childStartedAt s1 = childStartedAt s2 →
  fs s1 = fs s2 → logs s1 = logs s2 → listening s1 = listening s2 →
  timer s1 = timer s2 → resolved s1 = resolved s2 →
  spawnCalls s1 = spawnCalls s2 → timeouts s1 = timeouts s2 →
  exitHookCalls s1 = exitHookCalls s2 → giveUpHookCalls s1 = giveUpHookCalls s2 →
  s1 = s2.
Proof. destruct s1, s2. cbn. intros. by subst. Qed.

Ltac by_fields := apply supervisor_eq; simpl; try done.

Lemma error_effect s err s' :
  step host opts s (ChildError err) = Some s' → s' = log [WarnChildError err] s.
Proof. unfold step. destruct (child s); [|done]. by intros [= <-]. Qed.

Lemma signal_effect s sig s' :
  step host opts s (SignalReceived sig) = Some s' →
  listening s = true
  ∧ s' = {| state := state s; restartTimestamps := restartTimestamps s;
            backoffMs := backoffMs s;
            child := match child s with
                     | Some c => Some (if killed c then c else kill c sig)
                     | None => None
                     end;
            shuttingDown := true; childStartedAt := childStartedAt s;
            fs := fs s; logs := logs s ++ [InfoSignal sig];
            listening := listening s; timer := timer s; resolved := resolved s;
            spawnCalls := spawnCalls s; timeouts := timeouts s;
            exitHookCalls := exitHookCalls s;
            giveUpHookCalls := giveUpHookCalls s |}.
Proof.
  unfold step. destruct (listening s) eqn:Hl; [|done]. intros [= <-].
  split; [done|]. rewrite onSignal_eq. cbv zeta.
  destruct (child s) as [c|] eqn:Hc; [destruct (killed c)|]; by_fields.
Qed.

Lemma timer_effect s r s' :
  step host opts s (TimerFired r) = Some s' →
  is_Some (timer s)
  ∧ if shuttingDown s then
      s' = {| state := final_state (state s);
              restartTimestamps := restartTimestamps s; backoffMs := backoffMs s;
              child := child s; shuttingDown := true;
              childStartedAt := childStartedAt s;
              fs := (written host opts (final_state (state s)) (fs s)).1;
              logs := logs s ++ (written host opts (final_state (state s)) (fs s)).2;
              listening := false; timer := None; resolved := true;
              spawnCalls := spawnCalls s; timeouts := timeouts s;
              exitHookCalls := exitHookCalls s;
              giveUpHookCalls := giveUpHookCalls s |}
    else
      let st := with_status Running (with_childPid (spawned_pid r) (state s)) in
      s' = {| state := st;
              restartTimestamps := restartTimestamps s; backoffMs := backoffMs s;
              child := Some {| cp_pid := spawned_pid r; killed := false;
                               exited := false; received := [] |};
              shuttingDown := false; childStartedAt := now_spawned r;
              fs := (written host opts st (fs s)).1;
              logs := (logs s ++ (written host opts st (fs s)).2) ++ [InfoSpawned (spawned_pid r)];
              listening := listening s; timer := None; resolved := resolved s;
              spawnCalls :=
                spawnCalls s ++ [spawn_call host opts];
              timeouts := timeouts s; exitHookCalls := exitHookCalls s;
              giveUpHookCalls := giveUpHookCalls s |}.
Proof.
  unfold step. destruct (timer s) eqn:Ht; [|done]. intros [= <-].
  split; [done|]. unfold onTimer. cbv zeta.
  change (shuttingDown (set_timer None s)) with (shuttingDown s).
  destruct (shuttingDown s) eqn:Hsd.
  - rewrite cleanup_eq, persist_eq. unfold written, spawn_call. by_fields.
  - unfold runChild, spawnChild. rewrite persist_eq. unfold written, spawn_call. by_fields.
Qed.

Lemma clean_exit_effect s code signal clock s' :
  step host opts s (ChildExit code signal clock) = Some s' →
  shuttingDown s = true ∨ code = Some 0 →
  ∃ c, child s = Some c ∧ exited c = false
    ∧ s' = {| state := final_state (state s);
              restartTimestamps := restartTimestamps s; backoffMs := backoffMs s;
              child := Some (exited_handle c); shuttingDown := shuttingDown s;
              childStartedAt := childStartedAt s;
              fs := (written host opts (final_state (state s)) (fs s)).1;
              logs := (logs s ++ [InfoExit (shuttingDown s) code signal])
                      ++ (written host opts (final_state (state s)) (fs s)).2;
              listening := false; timer := timer s; resolved := true;
              spawnCalls := spawnCalls s; timeouts := timeouts s;
              exitHookCalls := exitHookCalls s ++ [(code, signal)];
              giveUpHookCalls := giveUpHookCalls s |}.
Proof.
  intros Hstep Hclean. apply step_exit_inv in Hstep as (c & Hc & Hex & ->).
  exists c. split_and!; [done..|].
  rewrite onExit_clean, cleanup_eq, persist_eq by exact Hclean. unfold written, spawn_call.
  by_fields.
Qed.

Lemma crash_exit_effect s code signal clock s' :
  step host opts s (ChildExit code signal clock) = Some s' →
  shuttingDown s = false → code ≠ Some 0 →
  ∃ c, child s = Some c ∧ exited c = false
    ∧ let kept := prune (now_check clock) (restartTimestamps s) in
      if bool_decide (Z.of_nat (length kept) >= maxRestarts opts) then
        let st := with_childPid None
                    (with_status GaveUp
                       (with_lastCrashAt (Some (crash_iso clock)) (state s))) in
        s' = {| state := st;
                restartTimestamps := kept; backoffMs := crash_delay opts clock s;
                child := Some (exited_handle c); shuttingDown := false;
                childStartedAt := childStartedAt s;
                fs := (written host opts st (written host opts st (fs s)).1).1;
                logs := (((logs s ++ [WarnCrashed code signal])
                          ++ [ErrorGivingUp (maxRestarts opts)])
                         ++ (written host opts st (fs s)).2)
                        ++ (written host opts st (written host opts st (fs s)).1).2;
                listening := false; timer := timer s; resolved := true;
                spawnCalls := spawnCalls s; timeouts := timeouts s;
                exitHookCalls := exitHookCalls s ++ [(code, signal)];
                giveUpHookCalls := S (giveUpHookCalls s) |}
      else
        let st := with_status Restarting
                    (with_restarts (restarts (state s) + 1)
                       (with_lastCrashAt (Some (crash_iso clock)) (state s))) in
        s' = {| state := st;
                restartTimestamps := kept ++ [now_push clock];
                backoffMs := Z.min (crash_delay opts clock s * 2) MAX_BACKOFF_MS;
                child := Some (exited_handle c); shuttingDown := false;
                childStartedAt := childStartedAt s;
                fs := (written host opts st (fs s)).1;
                logs := ((logs s ++ [WarnCrashed code signal])
                         ++ (written host opts st (fs s)).2)
                        ++ [InfoRestarting (crash_delay opts clock s)
                              (restarts (state s) + 1)];
                listening := listening s; timer := Some (crash_delay opts clock s);
                resolved := resolved s;
                spawnCalls := spawnCalls s;
                timeouts := timeouts s ++ [crash_delay opts clock s];
                exitHookCalls := exitHookCalls s ++ [(code, signal)];
                giveUpHookCalls := giveUpHookCalls s |}.
Proof.
  intros Hstep Hsd Hcode. apply step_exit_inv in Hstep as (c & Hc & Hex & ->).
  exists c. split_and!; [done..|].
  rewrite onExit_crash by done. unfold isRateLimited, crash_delay, written. cbv zeta.
  change (childStartedAt
            (set_state (with_lastCrashAt (Some (crash_iso clock)))
               (log [WarnCrashed code signal]
                  (onChildExit code signal (set_child (Some (exited_handle c)) s)))))
    with (childStartedAt s).
  destruct (bool_decide (now_uptime clock - childStartedAt s >= stableUptime opts));
    cbn [restartTimestamps set_restartTimestamps set_backoffMs set_state log
           onChildExit set_child];
    destruct (bool_decide
                (Z.of_nat (length (prune (now_check clock) (restartTimestamps s)))
                 >= maxRestarts opts));
    rewrite ?cleanup_eq, ?persist_eq; unfold final_state; by_fields.
Qed.

Lemma start_effect fs0 started_iso first s0 :
  startGatewayWatchdog host opts fs0 started_iso first = Some s0 →
  let st0 := {| pid := process_pid host; childPid := None; restarts := 0;
                lastCrashAt := None; startedAt := started_iso; status := Running |} in
  let st1 := with_status Running (with_childPid (spawned_pid first) st0) in
  s0 = {| state := st1; restartTimestamps := []; backoffMs := INITIAL_BACKOFF_MS;
          child := Some {| cp_pid := spawned_pid first; killed := false;
                           exited := false; received := [] |};
          shuttingDown := false; childStartedAt := now_spawned first;
          fs := (written host opts st1 (written host opts st0 fs0).1).1;
          logs := ((written host opts st0 fs0).2
                   ++ (written host opts st1 (written host opts st0 fs0).1).2)
                  ++ [InfoSpawned (spawned_pid first)];
          listening := true; timer := None; resolved := false;
          spawnCalls := [spawn_call host opts]; timeouts := [];
          exitHookCalls := []; giveUpHookCalls := 0 |}.
Proof.
  unfold startGatewayWatchdog. destruct (isLikelySupervisedProcess _ _); [done|].
  intros [= <-]. unfold runChild, spawnChild. rewrite !persist_eq.
  unfold written, spawn_call. by_fields.
Qed.

(** ** Invariants of runs *)

Lemma run_invariant (P : Supervisor → Prop) :
  (∀ s e s', consistent s → P s → step host opts s e = Some s' → P s') →
  ∀ events s s', consistent s → P s → run host opts s events = Some s' → P s'.
Proof.
  intros Hstep. induction events as [|e events IH]; intros s s' Hs HP Hrun.
  - by injection Hrun as <-.
  - rewrite run_cons in Hrun.
    destruct (step host opts s e) as [s1|] eqn:He; [|done].
    apply (IH s1); eauto using step_consistent.
Qed.

Lemma reachable_invariant (P : Supervisor → Prop) :
  (∀ fs0 started_iso first s0,
     startGatewayWatchdog host opts fs0 started_iso first = Some s0 → P s0) →
  (∀ s e s', consistent s → P s → step host opts s e = Some s' → P s') →
  ∀ s, reachable host opts s → P s.
Proof.
  intros Hstart Hstep s (fs0 & iso & first & events & s0 & H0 & Hrun).
  eapply run_invariant; [exact Hstep| |by eapply Hstart|exact Hrun].
  left. by eapply start_running.
Qed.

Ltac fields :=
  cbn [state restartTimestamps backoffMs child shuttingDown childStartedAt fs logs
       listening timer resolved spawnCalls timeouts exitHookCalls giveUpHookCalls
       log pid childPid restarts lastCrashAt startedAt status
       with_status with_childPid with_restarts with_lastCrashAt] in *.

(** Splits a step into the eight ways an event is handled and replaces the
    resulting supervisor by its fields. *)
Ltac step_cases Hstep :=
  lazymatch type of Hstep with
  | step _ _ ?s ?e = Some ?s' =>
    let code := fresh "code" in
    let signal := fresh "signal" in
    let clock := fresh "clock" in
    let c := fresh "c" in
    let Hc := fresh "Hc" in
    let Hex := fresh "Hex" in
    let Hsd := fresh "Hsd" in
    let Hcode := fresh "Hcode" in
    let Hlim := fresh "Hlim" in
    let Hl := fresh "Hl" in
    let Ht := fresh "Ht" in
    let Hs' := fresh "Hs'" in
    destruct e as [code signal clock|?err|?sig|?r];
    [ destruct (shuttingDown s) eqn:Hsd;
      [ apply clean_exit_effect in Hstep as (c & Hc & Hex & ->);
        [|by (left; exact Hsd)]
      | destruct (decide (code = Some 0)) as [Hcode|Hcode];
        [ apply clean_exit_effect in Hstep as (c & Hc & Hex & ->);
          [|by right]
        | apply crash_exit_effect in Hstep as (c & Hc & Hex & Hs');
          [|exact Hsd|exact Hcode];
          cbv zeta in Hs';
          destruct (bool_decide
                      (Z.of_nat (length (prune (now_check clock) (restartTimestamps s)))
                       >= maxRestarts opts)) eqn:Hlim;
          subst s' ] ]
    | apply error_effect in Hstep as ->
    | apply signal_effect in Hstep as [Hl ->]
    | apply timer_effect in Hstep as [Ht Hs'];
      destruct (shuttingDown s) eqn:Hsd; [|cbv zeta in Hs']; subst s' ]
  end.

Lemma final_state_fields (st : WatchdogState) :
  pid (final_state st) = pid st ∧ restarts (final_state st) = restarts st
  ∧ lastCrashAt (final_state st) = lastCrashAt st
  ∧ startedAt (final_state st) = startedAt st
  ∧ childPid (final_state st) = None
  ∧ status (final_state st) = (if bool_decide (status st ≠ GaveUp) then Stopped else GaveUp).
Proof.
  unfold final_state. case_bool_decide as Hst; cbn; split_and!; done.
Qed.

(** X1: the supervisor's own pid and start time never change, and the
    restart counter counts the timers set. *)
Theorem identity_kept_and_restarts_counted fs0 started_iso first s0 events s :
  startGatewayWatchdog host opts fs0 started_iso first = Some s0 →
  run host opts s0 events = Some s →
  pid (state s) = process_pid host ∧ startedAt (state s) = started_iso
  ∧ restarts (state s) = Z.of_nat (length (timeouts s)).
Proof.
  intros Hstart Hrun.
  eapply (run_invariant (λ s, pid (state s) = process_pid host
                              ∧ startedAt (state s) = started_iso
                              ∧ restarts (state s) = Z.of_nat (length (timeouts s))));
    [| |
     |exact Hrun].
  - clear. intros s e s' _ (Hpid & Hiso & Hn) Hstep.
    step_cases Hstep; fields;
      rewrite ?length_app; cbn [length];
      try (destruct (final_state_fields (state s)) as (-> & -> & _ & -> & _));
      try (destruct (final_state_fields
                       (with_childPid None
                          (with_status GaveUp
                             (with_lastCrashAt (Some (crash_iso clock)) (state s)))))
            as (-> & -> & _ & -> & _)); fields;
      split_and!; try done; lia.
  - left. by eapply start_running.
  - apply start_effect in Hstart. cbv zeta in Hstart. subst s0. by fields.
Qed.

(** X2: every child is spawned with the same command: the configured
    executable, the exec arguments followed by the arguments without the
    watchdog flag, and the environment with the child marker added. *)
Theorem every_spawn_follows_contract s call :
  reachable host opts s → call ∈ spawnCalls s →
  spawn_execPath call = default (process_execPath host) (execPath opts)
  ∧ spawn_args call
    = default (process_execArgv host) (execArgv opts)
      ++ buildChildArgv (default (drop 1 (process_argv host)) (argv opts))
  ∧ spawn_env call !! WATCHDOG_CHILD_ENV = Some "1"%string
  ∧ (∀ k, k ≠ WATCHDOG_CHILD_ENV → spawn_env call !! k = the_env host opts !! k)
  ∧ ("--watchdog"%string ∈ spawn_args call
     → "--watchdog"%string ∈ default (process_execArgv host) (execArgv opts)).
Proof.
  intros Hs Hin.
  assert (Hall : Forall (λ c, c = spawn_call host opts) (spawnCalls s)).
  { clear Hin. revert s Hs. apply reachable_invariant.
    - intros fs0 iso first s0 Hstart. apply start_effect in Hstart.
      cbv zeta in Hstart. subst s0. fields. by apply Forall_singleton.
    - intros s e s' _ HP Hstep. step_cases Hstep; fields; try done.
      apply Forall_app. split; [done|]. by apply Forall_singleton. }
  rewrite Forall_forall in Hall. rewrite (Hall _ Hin). unfold spawn_call.
  cbn [spawn_execPath spawn_args spawn_env]. split_and!; try done.
  - apply lookup_insert_eq.
  - intros k Hk. by apply lookup_insert_ne.
  - rewrite elem_of_app. intros [Hexec|Hchild]; [done|].
    unfold buildChildArgv in Hchild. apply list_elem_of_filter in Hchild as [Hne _].
    by destruct Hne.
Qed.

(** X3: the record of restart times never holds more entries than the cap. *)
Theorem restart_record_bounded s :
  reachable host opts s →
  Z.of_nat (length (restartTimestamps s)) ≤ Z.max 0 (maxRestarts opts).
Proof.
  revert s. apply reachable_invariant.
  - intros fs0 iso first s0 Hstart. apply start_effect in Hstart.
    cbv zeta in Hstart. subst s0. fields. cbn [length]. lia.
  - intros s e s' _ HP Hstep. step_cases Hstep; fields; try done.
    + pose proof (prune_length (now_check clock) (restartTimestamps s)). lia.
    + apply bool_decide_eq_false in Hlim. rewrite length_app. cbn [length]. lia.
Qed.

(** X4: the backoff and every restart delay stay between the initial
    backoff and the maximum, and a pending timer was set with the last
    delay. *)
Theorem backoff_within_bounds s :
  reachable host opts s →
  INITIAL_BACKOFF_MS ≤ backoffMs s ≤ MAX_BACKOFF_MS
  ∧ Forall (λ d, INITIAL_BACKOFF_MS ≤ d ≤ MAX_BACKOFF_MS) (timeouts s)
  ∧ (∀ d, timer s = Some d → last (timeouts s) = Some d).
Proof.
  revert s. apply reachable_invariant.
  - intros fs0 iso first s0 Hstart. apply start_effect in Hstart.
    cbv zeta in Hstart. subst s0. fields. unfold INITIAL_BACKOFF_MS, MAX_BACKOFF_MS.
    split_and!; [lia|lia|constructor|done].
  - intros s e s' _ (Hb & Hall & Hlast) Hstep.
    assert (Hd : ∀ clock, INITIAL_BACKOFF_MS ≤ crash_delay opts clock s ≤ MAX_BACKOFF_MS).
    { intros clock. unfold crash_delay. case_bool_decide; [|done].
      unfold INITIAL_BACKOFF_MS, MAX_BACKOFF_MS. lia. }
    step_cases Hstep; fields; try done.
    specialize (Hd clock). unfold INITIAL_BACKOFF_MS, MAX_BACKOFF_MS in *.
    split_and!; [lia|lia| |].
    + apply Forall_app. split; [done|]. by apply Forall_singleton.
    + intros d [= <-]. by rewrite last_snoc.
Qed.

(** X5: the exit callback is called once for every exit of a child, with
    its code and signal, and for nothing else. *)
Theorem exit_hook_called_once_per_exit s e s' :
  step host opts s e = Some s' →
  exitHookCalls s'
  = exitHookCalls s ++ match e with
                       | ChildExit code signal _ => [(code, signal)]
                       | _ => []
                       end.
Proof. intros Hstep. step_cases Hstep; fields; by rewrite ?app_nil_r. Qed.

(** X6: the time of the last crash is set by every crash, also by the one
    on which the supervisor gives up, and by nothing else. *)
Theorem last_crash_set_by_every_crash s e s' :
  step host opts s e = Some s' →
  lastCrashAt (state s')
  = match e with
    | ChildExit code _ clock =>
        if shuttingDown s || bool_decide (code = Some 0)
        then lastCrashAt (state s) else Some (crash_iso clock)
    | _ => lastCrashAt (state s)
    end.
Proof.
  intros Hstep.
  step_cases Hstep; fields; rewrite ?Hsd; cbn [orb];
    rewrite ?bool_decide_true, ?bool_decide_false by done;
    try (destruct (final_state_fields (state s)) as (_ & _ & -> & _)); done.
Qed.

(** ** The state file *)

Lemma written_done st f :
  state_file_writable host opts f →
  written host opts st f
  = ({| files := <[state_path host opts := state_file_text st]> (files f);
        can_mkdir := can_mkdir f; can_write := can_write f |}, []).
Proof.
  unfold written, writeWatchdogState, state_file_writable, state_file_text, state_path,
    mkdirSync, writeFileSync.
  cbv zeta. intros [Hdir Hfile]. rewrite Hdir. cbn. by rewrite Hfile.
Qed.

(** X9: on a host that lets the state file be written, the file holds the
    current state object after every event: a reader gets the state the
    supervisor is in. *)
Theorem state_file_follows_state fs0 started_iso first s0 events s :
  state_file_writable host opts fs0 →
  startGatewayWatchdog host opts fs0 started_iso first = Some s0 →
  run host opts s0 events = Some s →
  readWatchdogState host (fs s) (stateDir opts) = Return (state_json (state s))
  ∧ Forall (λ entry, ∀ err, entry ≠ WarnWriteFailed err) (logs s).
Proof.
  intros Hfs0 Hstart Hrun.
  set (P := λ s : Supervisor,
         (state_file_writable host opts (fs s)
          ∧ files (fs s) !! state_path host opts = Some (state_file_text (state s)))
         ∧ Forall (λ entry, ∀ err, entry ≠ WarnWriteFailed err) (logs s)).
  assert (Hw : ∀ st f,
             state_file_writable host opts f →
             (state_file_writable host opts (written host opts st f).1
              ∧ files (written host opts st f).1 !! state_path host opts
                = Some (state_file_text st))
             ∧ (written host opts st f).2 = []).
  { intros st f Hf. rewrite written_done by done. cbn [fst snd]. split; [|done].
    split; [exact Hf|]. cbn. apply lookup_insert_eq. }
  assert (HP : P s).
  { eapply (run_invariant P); [| | |exact Hrun].
    - clear -Hw. intros s e s' _ [[Hf Hfile] Hlog] Hstep. unfold P.
      step_cases Hstep; fields;
        repeat match goal with
               | |- context [written host opts ?st (fs s)] =>
                   lazymatch goal with
                   | H : (written host opts st (fs s)).2 = [] |- _ => fail
                   | _ => destruct (Hw st (fs s) Hf) as [[? ?] ?]
                   end
               end;
        try match goal with
            | |- context [written host opts ?st (written host opts ?st' (fs s)).1] =>
                destruct (Hw st (written host opts st' (fs s)).1) as [[? ?] ?];
                [done|]
            end;
        repeat match goal with H : _.2 = [] |- _ => rewrite H; clear H end;
        rewrite ?app_nil_r; split; try done;
        rewrite ?Forall_app; split_and?; try done;
        by apply Forall_singleton.
    - left. by eapply start_running.
    - apply start_effect in Hstart. cbv zeta in Hstart. subst s0. unfold P. fields.
      match goal with
      | |- context [written host opts ?st fs0] =>
          destruct (Hw st fs0 Hfs0) as [[Hf1 ?] Hl1]
      end.
      match goal with
      | |- context [written host opts ?st (written host opts ?st' fs0).1] =>
          destruct (Hw st (written host opts st' fs0).1 Hf1) as [[? ?] Hl2]
      end.
      rewrite Hl1, Hl2. split; [done|]. cbn [app]. by apply Forall_singleton. }
  destruct HP as [[_ Hfile] Hlog]. split; [|exact Hlog].
  unfold readWatchdogState, readFileSync. cbv zeta.
  unfold state_path in Hfile. rewrite Hfile. unfold state_file_text.
  cbn [mbind outcome_bind]. by rewrite parse_stringify_state.
Qed.

(** ** Children, timers and signals *)

(** X10: at any time the supervisor does exactly one thing: it awaits the
    exit of a child (the state names that child and says running), or it
    waits for a restart timer (restarting), or its promise is resolved
    (stopped or gave-up, no child pid); the signal listeners are registered
    until the promise is resolved. *)
Theorem one_activity_at_a_time s :
  reachable host opts s →
  listening s = negb (resolved s)
  ∧ (pending s = true ∨ is_Some (timer s) ∨ resolved s = true)
  ∧ (pending s = true →
     timer s = None ∧ resolved s = false ∧ status (state s) = Running
     ∧ ∃ c, child s = Some c ∧ childPid (state s) = cp_pid c)
  ∧ (is_Some (timer s) →
     pending s = false ∧ resolved s = false ∧ status (state s) = Restarting)
  ∧ (resolved s = true →
     pending s = false ∧ timer s = None ∧ childPid (state s) = None
     ∧ (status (state s) = Stopped ∨ status (state s) = GaveUp)).
Proof.
  intros Hs. apply reachable_consistent in Hs. unfold pending.
  destruct Hs as [(c & Hc & Hex & Ht & Hr & Hst & Hl & _ & Hpid)
                 |[(c & d & Hc & Hex & Ht & Hr & Hst & Hl & _)
                  |(c & Hc & Hex & Ht & Hr & Hl & Hpid & Hst)]];
    rewrite Hc, Hex, Ht, Hr, Hl; cbn [negb]; split_and!; try done;
    try (by intros [? [=]]);
    try (by ((left + (right; left) + (right; right)); eauto));
    try (intros _; split_and!; try done; eauto).
  destruct Hst as [[? _]|[? _]]; auto.
Qed.

Lemma kill_exited c sig : exited (kill c sig) = exited c.
Proof. unfold kill. by destruct (alive c). Qed.

(** X11: a child is spawned only after the one before it has exited: the
    number of spawns is the number of exits seen, plus one while a child
    runs. *)
Theorem one_child_at_a_time s :
  reachable host opts s →
  length (spawnCalls s)
  = (length (exitHookCalls s) + (if pending s then 1 else 0))%nat.
Proof.
  revert s. apply reachable_invariant.
  - intros fs0 iso first s0 Hstart. apply start_effect in Hstart.
    cbv zeta in Hstart. subst s0. done.
  - intros s e s' Hcons HP Hstep. unfold pending in *.
    step_cases Hstep; fields; try done;
      try (rewrite Hc, Hex in HP; cbn [negb] in HP;
           rewrite HP, length_app; unfold exited_handle;
           cbn [length negb exited]; lia).
    + destruct (child s) as [c|]; [|done].
      destruct (killed c); [done|]. by rewrite kill_exited.
    + destruct Hcons as [(c & Hc & Hex & Ht' & _)
                        |[(c & d & Hc & Hex & _)|(c & Hc & Hex & Ht' & _)]].
      * rewrite Ht' in Ht. by destruct Ht.
      * rewrite Hc, Hex in HP. cbn [negb] in HP. rewrite length_app, HP.
        cbn [length negb exited]. lia.
      * rewrite Ht' in Ht. by destruct Ht.
Qed.

(** X12: a child gets at most one signal from the supervisor, and only once
    the supervisor is shutting down; the handle is marked killed exactly
    when a signal has been sent to it. *)
Theorem child_signalled_at_most_once s c :
  reachable host opts s → child s = Some c →
  (length (received c) ≤ 1)%nat
  ∧ (killed c = true ↔ received c ≠ [])
  ∧ (received c ≠ [] → shuttingDown s = true).
Proof.
  intros Hs. revert c. revert s Hs.
  apply (reachable_invariant
           (λ s, ∀ c, child s = Some c →
                      (length (received c) ≤ 1)%nat
                      ∧ (killed c = true ↔ received c ≠ [])
                      ∧ (received c ≠ [] → shuttingDown s = true))).
  - intros fs0 iso first s0 Hstart. apply start_effect in Hstart.
    cbv zeta in Hstart. subst s0. fields. intros c [= <-]. cbn. split_and!; [lia| |done].
    split; done.
  - intros s e s' _ HP Hstep.
    step_cases Hstep; fields; try done;
      try (intros ? [= <-]; destruct (HP _ Hc) as (Hlen & Hk & Hsh);
           unfold exited_handle; cbn [received killed]; rewrite ?Hsd; done).
    + intros c' Hc'. destruct (child s) as [c|] eqn:Hc; [|done]. injection Hc' as <-.
      destruct (HP c eq_refl) as (Hlen & Hk & Hsh).
      destruct (killed c) eqn:Hkc; cbv iota.
      { rewrite Hkc. by split_and!. }
      assert (Hnone : received c = []).
      { destruct (received c); [done|]. destruct Hk as [_ Hk]. by discriminate Hk. }
      unfold kill. destruct (alive c).
      * cbn [received killed]. rewrite Hnone. cbn [app length]. by split_and!.
      * rewrite Hkc, Hnone. cbn [length]. split_and!; [lia|done|done].
    + intros ? [= <-]. cbn. split_and!; [lia| |done]. split; done.
Qed.

(** ** The rate limiter *)

Lemma prune_old (now : Z) (timestamps : list Z) :
  Forall (λ t : Z, now - t > RESTART_WINDOW_MS) timestamps → prune now timestamps = [].
Proof.
  induction 1 as [|t ts Ht _ IH]; cbn [prune]; [done|].
  by rewrite bool_decide_true.
Qed.

(** X13: the loop of the rate limiter drops a prefix of the record, every
    dropped entry is older than the window, the first entry kept is not, and
    a second pass drops nothing more. *)
Theorem prune_drops_old_prefix (now : Z) (timestamps : list Z) :
  ∃ dropped,
    timestamps = dropped ++ prune now timestamps
    ∧ Forall (λ t : Z, now - t > RESTART_WINDOW_MS) dropped
    ∧ (∀ t rest, prune now timestamps = t :: rest → now - t ≤ RESTART_WINDOW_MS)
    ∧ prune now (prune now timestamps) = prune now timestamps.
Proof.
  induction timestamps as [|t ts (dropped & Heq & Hold & Hhead & Hidem)].
  - exists []. by split_and!.
  - cbn [prune]. case_bool_decide as Ht.
    + exists (t :: dropped). split_and!; try done.
      * cbn [app]. by f_equal.
      * by constructor.
    + exists []. split_and!; try done.
      * intros t' rest [= <- _]. lia.
      * cbn [prune]. by rewrite bool_decide_false.
Qed.

(** X14: the window slides: when every recorded restart is older than the
    window the record is emptied, and under a cap of at least one the crash
    leads to a restart. *)
Theorem restarts_resume_after_window s code signal clock s' :
  shuttingDown s = false → code ≠ Some 0 → 0 < maxRestarts opts →
  Forall (λ t : Z, now_check clock - t > RESTART_WINDOW_MS) (restartTimestamps s) →
  step host opts s (ChildExit code signal clock) = Some s' →
  restartTimestamps s' = [now_push clock]
  ∧ status (state s') = Restarting
  ∧ timer s' = Some (crash_delay opts clock s)
  ∧ resolved s' = resolved s
  ∧ giveUpHookCalls s' = giveUpHookCalls s
  ∧ restarts (state s') = restarts (state s) + 1.
Proof.
  intros Hsd Hcode Hcap Hold Hstep.
  apply crash_exit_effect in Hstep as (c & Hc & Hex & Hs'); [|done..].
  cbv zeta in Hs'. rewrite (prune_old _ _ Hold) in Hs'. cbn [length] in Hs'.
  rewrite bool_decide_false in Hs' by lia. subst s'. fields.
  by split_and!.
Qed.


(** X15: a cap of zero or less allows no restart at all: the first crash
    already makes the supervisor give up, without a timer and without a
    new child. *)
Theorem no_restart_under_cap_of_zero s code signal clock s' :
  maxRestarts opts ≤ 0 → shuttingDown s = false → code ≠ Some 0 →
  step host opts s (ChildExit code signal clock) = Some s' →
  status (state s') = GaveUp ∧ childPid (state s') = None
  ∧ lastCrashAt (state s') = Some (crash_iso clock)
  ∧ restarts (state s') = restarts (state s)
  ∧ resolved s' = true ∧ listening s' = false ∧ timer s' = timer s
  ∧ timeouts s' = timeouts s ∧ spawnCalls s' = spawnCalls s
  ∧ giveUpHookCalls s' = S (giveUpHookCalls s).
Proof.
  intros Hcap Hsd Hcode Hstep.
  apply crash_exit_effect in Hstep as (c & Hc & Hex & Hs'); [|done..].
  cbv zeta in Hs'. rewrite bool_decide_true in Hs' by lia. subst s'. fields.
  by split_and!.
Qed.

(** ** The file system and the log do not steer the supervisor *)

Lemma step_enabled s1 s2 e :
  child s1 = child s2 → listening s1 = listening s2 → timer s1 = timer s2 →
  is_Some (step host opts s1 e) → is_Some (step host opts s2 e).
Proof.
  unfold step. intros <- <- <-. destruct e; try done.
  - destruct (child s1) as [c|]; [|done]. destruct (exited c); [done|]. eauto.
  - destruct (child s1); [eauto|done].
  - destruct (listening s1); [eauto|done].
  - destruct (timer s1); [eauto|done].
Qed.

Lemma step_same_control s1 s2 e s1' :
  same_control s1 s2 → step host opts s1 e = Some s1' →
  ∃ s2', step host opts s2 e = Some s2' ∧ same_control s1' s2'.
Proof.
  intros (Hst & Hts & Hb & Hch & Hsh & Hstarted & Hl & Ht & Hr & Hsp & Hto & Hex' & Hg)
         Hstep1.
  destruct (step_enabled s1 s2 e Hch Hl Ht) as [s2' Hstep2]; [by eauto|].
  exists s2'. split; [done|]. unfold same_control.
  destruct e as [code signal clock|err|sig|r].
  - destruct (shuttingDown s1) eqn:Hsd1.
    { apply clean_exit_effect in Hstep1 as (c1 & Hc1 & _ & ->); [|by left].
      apply clean_exit_effect in Hstep2 as (c2 & Hc2 & _ & ->); [|by left].
      fields. split_and!; congruence. }
    destruct (decide (code = Some 0)) as [Hcode|Hcode].
    { apply clean_exit_effect in Hstep1 as (c1 & Hc1 & _ & ->); [|by right].
      apply clean_exit_effect in Hstep2 as (c2 & Hc2 & _ & ->); [|by right].
      fields. split_and!; congruence. }
    apply crash_exit_effect in Hstep1 as (c1 & Hc1 & _ & Hs1); [|done..].
    apply crash_exit_effect in Hstep2 as (c2 & Hc2 & _ & Hs2); [|done..].
    cbv zeta in Hs1, Hs2. unfold crash_delay in *.
    rewrite <- Hts, <- Hb, <- Hstarted in Hs2.
    destruct (bool_decide (_ >= maxRestarts opts)); subst s1' s2'; fields;
      split_and!; congruence.
  - apply error_effect in Hstep1 as ->. apply error_effect in Hstep2 as ->.
    fields. by split_and!.
  - apply signal_effect in Hstep1 as [_ ->]. apply signal_effect in Hstep2 as [_ ->].
    fields. rewrite Hch. split_and!; congruence.
  - apply timer_effect in Hstep1 as [_ Hs1]. apply timer_effect in Hstep2 as [_ Hs2].
    rewrite <- Hsh in Hs2. destruct (shuttingDown s1); cbv zeta in Hs1, Hs2;
      subst s1' s2'; fields; split_and!; congruence.
Qed.

(** X16: the file system and the log do not steer the supervisor: started on
    two hosts that differ in nothing but their files and what they let be
    written, and given the same events, two runs spawn, schedule, count and
    finish alike, even when every write of the state file fails in one of
    them. *)
Theorem control_independent_of_files fs1 fs2 started_iso first events s1 s1' :
  startGatewayWatchdog host opts fs1 started_iso first = Some s1 →
  run host opts s1 events = Some s1' →
  ∃ s2 s2', startGatewayWatchdog host opts fs2 started_iso first = Some s2
    ∧ run host opts s2 events = Some s2'
    ∧ same_control s1' s2'.
Proof.
  intros Hstart Hrun.
  assert (Hdef : ∃ s2, startGatewayWatchdog host opts fs2 started_iso first = Some s2).
  { unfold startGatewayWatchdog in *.
    destruct (isLikelySupervisedProcess _ _); [done|]. eauto. }
  destruct Hdef as [s2 Hstart2]. exists s2.
  assert (Hsame : same_control s1 s2).
  { apply start_effect in Hstart. apply start_effect in Hstart2.
    cbv zeta in Hstart, Hstart2. subst s1 s2. unfold same_control. fields.
    by split_and!. }
  cut (∃ s2', run host opts s2 events = Some s2' ∧ same_control s1' s2').
  { intros (s2' & ? & ?). by exists s2'. }
  clear Hstart Hstart2. revert s1 s2 Hsame Hrun.
  induction events as [|e events IH]; intros s1 s2 Hsame Hrun.
  - injection Hrun as <-. by exists s2.
  - rewrite run_cons in Hrun.
    destruct (step host opts s1 e) as [t1|] eqn:Hstep; [|done]. cbn in Hrun.
    destruct (step_same_control _ _ _ _ Hsame Hstep) as (t2 & Hstep2 & Hsame').
    destruct (IH _ _ Hsame' Hrun) as (s2' & Hrun2 & Hfin).
    exists s2'. split; [|done]. by rewrite run_cons, Hstep2.
Qed.

(** X17: the give-up callback has been called exactly once when the status
    is gave-up and never otherwise. *)
Theorem hook_called_iff_gave_up s :
  reachable host opts s →
  giveUpHookCalls s = if bool_decide (status (state s) = GaveUp) then 1%nat else 0%nat.
Proof.
  intros Hs. apply reachable_consistent in Hs.
  destruct Hs as [(c & _ & _ & _ & _ & Hst & _ & Hg & _)
                 |[(c & d & _ & _ & _ & _ & Hst & _ & Hg)
                  |(c & _ & _ & _ & _ & _ & _ & [[Hst Hg]|[Hst Hg]])]];
    by rewrite Hst, Hg.
Qed.

(** X18: the restart counter of the state object counts the respawns: while
    a child is awaited there have been one more spawn than restarts, and
    never more than that. *)
Theorem spawns_match_restart_counter s :
  reachable host opts s →
  (Z.of_nat (length (spawnCalls s)) ≤ restarts (state s) + 1)
  ∧ (pending s = true → Z.of_nat (length (spawnCalls s)) = restarts (state s) + 1)
  ∧ (is_Some (timer s) → Z.of_nat (length (spawnCalls s)) = restarts (state s)).
Proof.
  revert s. apply reachable_invariant.
  - intros fs0 iso first s0 Hstart. apply start_effect in Hstart.
    cbv zeta in Hstart. subst s0. unfold pending. fields. cbn [length].
    split_and!; [lia|lia|]. by intros [? [=]].
  - intros s e s' Hcons (Hle & Hrun & Hwait) Hstep. unfold pending in *.
    step_cases Hstep; fields;
      try (destruct (final_state_fields (state s)) as (_ & -> & _));
      try (rewrite Hc, Hex in Hrun; specialize (Hrun eq_refl));
      unfold exited_handle; cbn [exited negb]; try done.
    + split_and!; [lia|done|]. intros _. lia.
    + split_and!; [done| |done]. destruct (child s) as [c|]; [|done].
      destruct (killed c); [done|]. by rewrite kill_exited.
    + specialize (Hwait Ht). rewrite length_app. cbn [length].
      split_and!; [lia|lia|]. by intros [? [=]].
Qed.
End Effects.

(** ** Further runs of the sample configuration *)

(** A crash, the restart and a termination signal: the second child is
    awaited and has been sent the signal. *)
Lemma sample_run_defined :
  ∃ s0 s c,
    sample_start (Some 2) = Some s0
    ∧ run sample_host (sample_opts (Some 2)) s0 sample_events = Some s
    ∧ child s = Some c
    ∧ spawnCalls s
      = [spawn_call sample_host (sample_opts (Some 2));
         spawn_call sample_host (sample_opts (Some 2))].
Proof.
  do 3 eexists. split; [vm_compute; reflexivity|].
  split; [vm_compute; reflexivity|].
  split; vm_compute; reflexivity.
Defined.

Lemma sample_run_reachable s0 s :
  sample_start (Some 2) = Some s0 →
  run sample_host (sample_opts (Some 2)) s0 sample_events = Some s →
  reachable sample_host (sample_opts (Some 2)) s.
Proof. intros Hstart Hrun. by exists empty_fs, sample_iso, (spawn_at 0), sample_events, s0. Qed.

Lemma identity_kept_and_restarts_counted_witness :
  ∃ s0 s,
    sample_start (Some 2) = Some s0
    ∧ run sample_host (sample_opts (Some 2)) s0 sample_events = Some s
    ∧ pid (state s) = 4242 ∧ startedAt (state s) = sample_iso
    ∧ restarts (state s) = Z.of_nat (length (timeouts s)).
Proof.
  destruct sample_run_defined as (s0 & s & c & Hstart & Hrun & _).
  exists s0, s. split; [exact Hstart|]. split; [exact Hrun|].
  exact (identity_kept_and_restarts_counted sample_host (sample_opts (Some 2))
           empty_fs sample_iso (spawn_at 0) s0 sample_events s Hstart Hrun).
Defined.

Lemma every_spawn_follows_contract_witness :
  ∃ s call,
    reachable sample_host (sample_opts (Some 2)) s
    ∧ call ∈ spawnCalls s
    ∧ spawn_args call = ["gateway"; "run"]%string
    ∧ spawn_env call !! WATCHDOG_CHILD_ENV = Some "1"%string.
Proof.
  destruct sample_run_defined as (s0 & s & c & Hstart & Hrun & _ & Hcalls).
  assert (Hs : reachable sample_host (sample_opts (Some 2)) s)
    by exact (sample_run_reachable s0 s Hstart Hrun).
  assert (Hin : spawn_call sample_host (sample_opts (Some 2)) ∈ spawnCalls s).
  { rewrite Hcalls. apply list_elem_of_here. }
  exists s, (spawn_call sample_host (sample_opts (Some 2))).
  destruct (every_spawn_follows_contract sample_host (sample_opts (Some 2)) s _ Hs Hin)
    as (_ & Hargs & Henv & _).
  split_and!; [exact Hs|exact Hin|exact Hargs|exact Henv].
Defined.

Lemma restart_record_bounded_witness :
  ∃ s, reachable sample_host (sample_opts (Some 2)) s
       ∧ Z.of_nat (length (restartTimestamps s)) ≤ 2.
Proof.
  destruct sample_run_defined as (s0 & s & c & Hstart & Hrun & _).
  assert (Hs : reachable sample_host (sample_opts (Some 2)) s)
    by exact (sample_run_reachable s0 s Hstart Hrun).
  exists s. split; [exact Hs|].
  exact (restart_record_bounded sample_host (sample_opts (Some 2)) s Hs).
Defined.

Lemma backoff_within_bounds_witness :
  ∃ s, reachable sample_host (sample_opts (Some 2)) s
       ∧ 1000 ≤ backoffMs s ≤ 60000.
Proof.
  destruct sample_run_defined as (s0 & s & c & Hstart & Hrun & _).
  assert (Hs : reachable sample_host (sample_opts (Some 2)) s)
    by exact (sample_run_reachable s0 s Hstart Hrun).
  exists s. split; [exact Hs|].
  exact (proj1 (backoff_within_bounds sample_host (sample_opts (Some 2)) s Hs)).
Defined.

(** The first crash of the sample run. *)
Lemma sample_crash_defined (max_restarts : option Z) :
  ∃ s0 s1,
    sample_start max_restarts = Some s0
    ∧ step sample_host (sample_opts max_restarts) s0 (crash_exit (crash_at 10 1100))
      = Some s1
    ∧ shuttingDown s0 = false.
Proof.
  do 2 eexists. split; [vm_compute; reflexivity|].
  split; vm_compute; reflexivity.
Defined.

Lemma exit_hook_called_once_per_exit_witness :
  ∃ s0 s1,
    step sample_host (sample_opts None) s0 (crash_exit (crash_at 10 1100)) = Some s1
    ∧ exitHookCalls s1 = exitHookCalls s0 ++ [(Some 1, None)].
Proof.
  destruct (sample_crash_defined None) as (s0 & s1 & _ & Hstep & _).
  exists s0, s1. split; [exact Hstep|].
  exact (exit_hook_called_once_per_exit sample_host (sample_opts None) s0 _ s1 Hstep).
Defined.

Lemma last_crash_set_by_every_crash_witness :
  ∃ s0 s1,
    step sample_host (sample_opts None) s0 (crash_exit (crash_at 10 1100)) = Some s1
    ∧ lastCrashAt (state s1) = Some sample_iso.
Proof.
  destruct (sample_crash_defined None) as (s0 & s1 & _ & Hstep & Hsd).
  exists s0, s1. split; [exact Hstep|].
  pose proof (last_crash_set_by_every_crash sample_host (sample_opts None) s0 _ s1 Hstep)
    as Hlast.
  cbn [crash_exit crash_at crash_code crash_clock crash_iso] in Hlast.
  rewrite Hsd in Hlast. exact Hlast.
Defined.

Lemma state_file_follows_state_witness :
  ∃ s0 s,
    sample_start (Some 2) = Some s0
    ∧ run sample_host (sample_opts (Some 2)) s0 sample_events = Some s
    ∧ readWatchdogState sample_host (fs s) (stateDir (sample_opts (Some 2)))
      = Return (state_json (state s)).
Proof.
  destruct sample_run_defined as (s0 & s & c & Hstart & Hrun & _).
  exists s0, s. split; [exact Hstart|]. split; [exact Hrun|].
  destruct (state_file_follows_state sample_host (sample_opts (Some 2)) empty_fs
              sample_iso (spawn_at 0) s0 sample_events s) as (Hread & _).
  - split; reflexivity.
  - exact Hstart.
  - exact Hrun.
  - exact Hread.
Defined.

Lemma one_activity_at_a_time_witness :
  ∃ s, reachable sample_host (sample_opts (Some 2)) s
       ∧ listening s = negb (resolved s).
Proof.
  destruct sample_run_defined as (s0 & s & c & Hstart & Hrun & _).
  assert (Hs : reachable sample_host (sample_opts (Some 2)) s)
    by exact (sample_run_reachable s0 s Hstart Hrun).
  exists s. split; [exact Hs|].
  exact (proj1 (one_activity_at_a_time sample_host (sample_opts (Some 2)) s Hs)).
Defined.

Lemma one_child_at_a_time_witness :
  ∃ s, reachable sample_host (sample_opts (Some 2)) s
       ∧ length (spawnCalls s)
         = (length (exitHookCalls s) + (if pending s then 1 else 0))%nat.
Proof.
  destruct sample_run_defined as (s0 & s & c & Hstart & Hrun & _).
  assert (Hs : reachable sample_host (sample_opts (Some 2)) s)
    by exact (sample_run_reachable s0 s Hstart Hrun).
  exists s. split; [exact Hs|].
  exact (one_child_at_a_time sample_host (sample_opts (Some 2)) s Hs).
Defined.

Lemma child_signalled_at_most_once_witness :
  ∃ s c, reachable sample_host (sample_opts (Some 2)) s
         ∧ child s = Some c
         ∧ (length (received c) ≤ 1)%nat.
Proof.
  destruct sample_run_defined as (s0 & s & c & Hstart & Hrun & Hc & _).
  assert (Hs : reachable sample_host (sample_opts (Some 2)) s)
    by exact (sample_run_reachable s0 s Hstart Hrun).
  exists s, c. split; [exact Hs|]. split; [exact Hc|].
  exact (proj1 (child_signalled_at_most_once sample_host (sample_opts (Some 2)) s c
                  Hs Hc)).
Defined.

(** Under a cap of one restart: a crash, the restart, and a second crash
    more than an hour later. *)
Lemma restarts_resume_after_window_witness :
  ∃ s1 s2,
    step sample_host (sample_opts (Some 1)) s1 (crash_exit (crash_at 4000000 4001000))
    = Some s2
    ∧ restartTimestamps s1 = [10]
    ∧ restartTimestamps s2 = [4000000]
    ∧ status (state s2) = Restarting.
Proof.
  assert (∃ s0 s1 s2,
            sample_start (Some 1) = Some s0
            ∧ run sample_host (sample_opts (Some 1)) s0 (crash_cycles [crash_at 10 1100])
              = Some s1
            ∧ step sample_host (sample_opts (Some 1)) s1
                (crash_exit (crash_at 4000000 4001000)) = Some s2
            ∧ restartTimestamps s1 = [10]
            ∧ shuttingDown s1 = false)
    as (s0 & s1 & s2 & _ & _ & Hstep & Hts & Hsd).
  { do 3 eexists. split; [vm_compute; reflexivity|].
    split; [vm_compute; reflexivity|].
    split; [vm_compute; reflexivity|].
    split; vm_compute; reflexivity. }
  exists s1, s2. split; [exact Hstep|]. split; [exact Hts|].
  destruct (restarts_resume_after_window sample_host (sample_opts (Some 1)) s1
              (Some 1) None
              {| crash_iso := sample_iso; now_uptime := 4000000; now_check := 4000000;
                 now_push := 4000000 |} s2) as (Hrec & Hst & _).
  - exact Hsd.
  - discriminate.
  - reflexivity.
  - rewrite Hts. apply Forall_singleton. reflexivity.
  - exact Hstep.
  - split; [exact Hrec|exact Hst].
Defined.

Lemma no_restart_under_cap_of_zero_witness :
  ∃ s0 s1,
    sample_start (Some 0) = Some s0
    ∧ step sample_host (sample_opts (Some 0)) s0 (crash_exit (crash_at 10 1100))
      = Some s1
    ∧ status (state s1) = GaveUp ∧ timeouts s1 = timeouts s0.
Proof.
  destruct (sample_crash_defined (Some 0)) as (s0 & s1 & Hstart & Hstep & Hsd).
  exists s0, s1. split; [exact Hstart|]. split; [exact Hstep|].
  destruct (no_restart_under_cap_of_zero sample_host (sample_opts (Some 0)) s0
              (Some 1) None
              {| crash_iso := sample_iso; now_uptime := 10; now_check := 10;
                 now_push := 10 |} s1)
    as (Hst & _ & _ & _ & _ & _ & _ & Hto & _).
  - vm_compute. discriminate.
  - exact Hsd.
  - discriminate.
  - exact Hstep.
  - split; [exact Hst|exact Hto].
Defined.

Lemma control_independent_of_files_witness :
  ∃ s1 s1' s2 s2',
    sample_start (Some 2) = Some s1
    ∧ run sample_host (sample_opts (Some 2)) s1 sample_events = Some s1'
    ∧ startGatewayWatchdog sample_host (sample_opts (Some 2)) readonly_fs sample_iso
        (spawn_at 0) = Some s2
    ∧ run sample_host (sample_opts (Some 2)) s2 sample_events = Some s2'
    ∧ same_control s1' s2'.
Proof.
  destruct sample_run_defined as (s1 & s1' & c & Hstart & Hrun & _).
  destruct (control_independent_of_files sample_host (sample_opts (Some 2)) empty_fs
              readonly_fs sample_iso (spawn_at 0) sample_events s1 s1' Hstart Hrun)
    as (s2 & s2' & Hstart2 & Hrun2 & Hsame).
  exists s1, s1', s2, s2'. split_and!; assumption.
Defined.

Lemma hook_called_iff_gave_up_witness :
  ∃ s, reachable sample_host (sample_opts (Some 2)) s
       ∧ giveUpHookCalls s
         = if bool_decide (status (state s) = GaveUp) then 1%nat else 0%nat.
Proof.
  destruct sample_run_defined as (s0 & s & c & Hstart & Hrun & _).
  assert (Hs : reachable sample_host (sample_opts (Some 2)) s)
    by exact (sample_run_reachable s0 s Hstart Hrun).
  exists s. split; [exact Hs|].
  exact (hook_called_iff_gave_up sample_host (sample_opts (Some 2)) s Hs).
Defined.

Lemma spawns_match_restart_counter_witness :
  ∃ s, reachable sample_host (sample_opts (Some 2)) s
       ∧ Z.of_nat (length (spawnCalls s)) ≤ restarts (state s) + 1.
Proof.
  destruct sample_run_defined as (s0 & s & c & Hstart & Hrun & _).
  assert (Hs : reachable sample_host (sample_opts (Some 2)) s)
    by exact (sample_run_reachable s0 s Hstart Hrun).
  exists s. split; [exact Hs|].
  exact (proj1 (spawns_match_restart_counter sample_host (sample_opts (Some 2)) s Hs)).
Defined.

(** * Bonjour: ignored rejections *)

Lemma starts_with_app (message p q : string) :
  starts_with message (p +:+ q) = true → starts_with message p = true.
Proof.
  revert message. induction p as [|a p IH]; intros message; [by destruct message|].
  destruct message as [|b message]; cbn [String.append starts_with]; [done|].
  destruct (Ascii.eqb a b); cbn [andb]; [apply IH|done].
Qed.

Lemma includes_app (message p q : string) :
  includes message (p +:+ q) = true → includes message p = true.
Proof.
  induction message as [|b message IH]; cbn [includes];
    rewrite !orb_true_iff; intros [Hhere|Hlater].
  - left. by eapply starts_with_app.
  - done.
  - left. by eapply starts_with_app.
  - right. auto.
Qed.

Section BonjourFacts.
Context {Reason : Type} (formatBonjourError : Reason → string)
        (toUpperCase : string → string).

(** X19: the third pattern never decides: it contains the second one, so
    a rejection is ignored exactly when its upper-cased text includes the
    cancellation text or the second pattern. *)
Theorem third_pattern_is_redundant (reason : Reason) :
  (ignoreCiaoCancellationRejection formatBonjourError toUpperCase reason).1
  = includes (toUpperCase (formatBonjourError reason)) "CIAO ANNOUNCEMENT CANCELLED"
    || includes (toUpperCase (formatBonjourError reason))
         "REACHED ILLEGAL STATE! IPV4 ADDRESS CHANGE".
Proof.
  unfold ignoreCiaoCancellationRejection, CIAO_TRANSIENT_PATTERNS. cbv zeta.
  cbn [existsb]. set (message := toUpperCase (formatBonjourError reason)).
  pose proof (includes_app message "REACHED ILLEGAL STATE! IPV4 ADDRESS CHANGE" "D")
    as Hthird.
  change ("REACHED ILLEGAL STATE! IPV4 ADDRESS CHANGE" +:+ "D")%string
    with "REACHED ILLEGAL STATE! IPV4 ADDRESS CHANGED"%string in Hthird.
  destruct (includes message "CIAO ANNOUNCEMENT CANCELLED");
    destruct (includes message "REACHED ILLEGAL STATE! IPV4 ADDRESS CHANGE");
    destruct (includes message "REACHED ILLEGAL STATE! IPV4 ADDRESS CHANGED");
    cbn [orb negb]; try (by destruct (includes message "REACHED ILLEGAL STATE")).
  by specialize (Hthird eq_refl).
Qed.

(** X20: an address-change assertion is always reported as a warning that
    carries the formatted reason; a rejection is logged exactly when it is
    ignored, and then once. *)
Theorem address_change_is_warned (reason : Reason) :
  (includes (toUpperCase (formatBonjourError reason))
     "REACHED ILLEGAL STATE! IPV4 ADDRESS CHANGE" = true →
   ignoreCiaoCancellationRejection formatBonjourError toUpperCase reason
   = (true, [LogWarn ("bonjour: suppressed ciao network-change assertion (non-fatal): "
                      +:+ formatBonjourError reason)]))
  ∧ length (ignoreCiaoCancellationRejection formatBonjourError toUpperCase reason).2
    = (if (ignoreCiaoCancellationRejection formatBonjourError toUpperCase reason).1
       then 1 else 0)%nat.
Proof.
  unfold ignoreCiaoCancellationRejection, CIAO_TRANSIENT_PATTERNS. cbv zeta.
  cbn [existsb]. set (message := toUpperCase (formatBonjourError reason)).
  pose proof (includes_app message "REACHED ILLEGAL STATE" "! IPV4 ADDRESS CHANGE")
    as Hstate.
  change ("REACHED ILLEGAL STATE" +:+ "! IPV4 ADDRESS CHANGE")%string
    with "REACHED ILLEGAL STATE! IPV4 ADDRESS CHANGE"%string in Hstate.
  split.
  - intros Hsecond. rewrite Hsecond, (Hstate Hsecond), orb_true_r. done.
  - destruct (_ || _); cbn [negb]; [|done].
    by destruct (includes message "REACHED ILLEGAL STATE").
Qed.
End BonjourFacts.
